(** * Verification of squad_teamkill_bot/bot.py (TKMonitor)

    Shallow embedding of the log-line engine of [TKMonitor]:
    - [re.search] / [re.match] over the patterns used in the source, by a
      backtracking matcher that explores alternatives in Python's priority
      order (greedy repetition, left alternative first), so that the groups
      it returns are the ones Python returns;
    - [datetime.strptime(s, "%Y.%m.%d-%H.%M.%S:%f")] by the regular
      expression Python's [_strptime] compiles for this format, followed by
      the range checks of the [datetime] constructor;
    - the instance fields of [TKMonitor] as a record threaded through a
      state/exception monad: a raised exception keeps the mutations done
      before it, as Python's do on [self];
    - [_log_follow] as a step function on the follower state. *)

From Stdlib Require Import String Ascii ZArith List Lia.
From stdpp Require Import base gmap strings list.

Open Scope string_scope.

(* ------------------------------------------------------------------ *)
(** ** Python's [re]: a backtracking matcher *)

Module Re.

(** Character classes are predicates on one character; repetition is only
    ever applied to a character class in the patterns of bot.py. *)
Inductive rx :=
| Chr (p : ascii -> bool)
| Seq (r1 r2 : rx)
| Alt (r1 r2 : rx)
| Star (p : ascii -> bool)
| Group (name : string) (r : rx)
| Eps.

Definition captures := list (string * string).

Fixpoint sdrop (n : nat) (s : string) : string :=
  match n, s with
  | O, _ => s
  | S n', String _ s' => sdrop n' s'
  | S _, EmptyString => EmptyString
  end.

Fixpoint stake (n : nat) (s : string) : string :=
  match n, s with
  | O, _ => EmptyString
  | S n', String c s' => String c (stake n' s')
  | S _, EmptyString => EmptyString
  end.

(** Length of the longest prefix of [s] whose characters satisfy [p]. *)
Fixpoint span (p : ascii -> bool) (s : string) : nat :=
  match s with
  | String c s' => if p c then S (span p s') else O
  | EmptyString => O
  end.

Section Matcher.
Context {T : Type}.

(** Greedy repetition: try the longest run first, then give back one
    character at a time. *)
Fixpoint star_try (k : string -> captures -> option T) (s : string)
    (caps : captures) (n : nat) : option T :=
  match k (sdrop n s) caps with
  | Some x => Some x
  | None => match n with O => None | S n' => star_try k s caps n' end
  end.

Fixpoint mtch (r : rx) (s : string) (caps : captures)
    (k : string -> captures -> option T) : option T :=
  match r with
  | Chr p =>
      match s with
      | String c s' => if p c then k s' caps else None
      | EmptyString => None
      end
  | Seq r1 r2 => mtch r1 s caps (fun s' caps' => mtch r2 s' caps' k)
  | Alt r1 r2 =>
      match mtch r1 s caps k with
      | Some x => Some x
      | None => mtch r2 s caps k
      end
  | Star p => star_try k s caps (span p s)
  | Group name r1 =>
      mtch r1 s caps (fun s' caps' =>
        k s' ((name, stake (String.length s - String.length s') s) :: caps'))
  | Eps => k s caps
  end.

End Matcher.

(** [re.search]: the first start position, from the left, at which the
    pattern matches; the groups of the first match in priority order. *)
Fixpoint search (r : rx) (s : string) : option captures :=
  match mtch r s [] (fun _ caps => Some caps) with
  | Some caps => Some caps
  | None =>
      match s with
      | String _ s' => search r s'
      | EmptyString => None
      end
  end.

(** [re.match]: anchored at the start; also returns the unmatched rest. *)
Definition match_prefix (r : rx) (s : string) : option (string * captures) :=
  mtch r s [] (fun rest caps => Some (rest, caps)).

(** [m.group(name)] *)
Fixpoint group (name : string) (caps : captures) : option string :=
  match caps with
  | [] => None
  | (n, v) :: caps' => if String.eqb n name then Some v else group name caps'
  end.

(** Building blocks. *)
Definition lit_char (c : ascii) : rx := Chr (fun d => Ascii.eqb d c).

Fixpoint lit (s : string) : rx :=
  match s with
  | String c EmptyString => lit_char c
  | String c s' => Seq (lit_char c) (lit s')
  | EmptyString => Eps
  end.

Fixpoint seqs (rs : list rx) : rx :=
  match rs with
  | [] => Eps
  | [r] => r
  | r :: rs' => Seq r (seqs rs')
  end.

Fixpoint alts (rs : list rx) : rx :=
  match rs with
  | [] => Chr (fun _ => false)
  | [r] => r
  | r :: rs' => Alt r (alts rs')
  end.

Definition newline : ascii := Ascii.ascii_of_nat 10.

(** [.]: any character but a newline *)
Definition any_but_nl (c : ascii) : bool := negb (Ascii.eqb c newline).
(** [[0-9]] and [\d] *)
Definition is_digit (c : ascii) : bool :=
  (48 <=? Ascii.nat_of_ascii c)%nat && (Ascii.nat_of_ascii c <=? 57)%nat.
Definition digit_range (lo hi : nat) (c : ascii) : bool :=
  (48 + lo <=? Ascii.nat_of_ascii c)%nat && (Ascii.nat_of_ascii c <=? 48 + hi)%nat.
(** [[^c]] *)
Definition not_char (d : ascii) (c : ascii) : bool := negb (Ascii.eqb c d).

Definition plus (p : ascii -> bool) : rx := Seq (Chr p) (Star p).

End Re.

(* ------------------------------------------------------------------ *)
(** ** The patterns of bot.py *)

Module Patterns.
Import Re.

Definition rbr : ascii := "]"%char.

(** In the patterns quoted below, a space separates a [*] from a following
    [)], which would otherwise close the comment. *)

(** [_match_damage]:
    [\[(?P<time>[^\]]+)\]\[(?P<log_id>[0-9]+)\]LogSquad: Player:(?P<victim>.* ) ActualDamage=.* from (?P<killer>.* ) caused by BP_(?P<weapon>[^\_]* )\_] *)
Definition damage_rx : rx :=
  seqs [ lit "["; Group "time" (plus (not_char rbr)); lit "]";
         lit "["; Group "log_id" (plus is_digit); lit "]";
         lit "LogSquad: Player:";
         Group "victim" (Star any_but_nl);
         lit " ActualDamage="; Star any_but_nl; lit " from ";
         Group "killer" (Star any_but_nl);
         lit " caused by ";
         lit "BP_"; Group "weapon" (Star (not_char "_"%char)); lit "_" ].

(** [_match_teamkill]:
    [\[(?P<log_id>[0-9]+)\][^\n]*LogSquadScorePoints:[^\n]*TeamKilled] *)
Definition teamkill_rx : rx :=
  seqs [ lit "["; Group "log_id" (plus is_digit); lit "]";
         Star (not_char newline);
         lit "LogSquadScorePoints:";
         Star (not_char newline);
         lit "TeamKilled" ].

(** [_match_admincam], possess:
    [\[(?P<time>[^\]]+)\]\[(?P<log_id>[0-9]+)\][^\n]*ASQPlayerController::Possess[^\n]*PC=(?P<user>.* ) [^\n]*Pawn=CameraMan_C_] *)
Definition possess_rx : rx :=
  seqs [ lit "["; Group "time" (plus (not_char rbr)); lit "]";
         lit "["; Group "log_id" (plus is_digit); lit "]";
         Star (not_char newline);
         lit "ASQPlayerController::Possess";
         Star (not_char newline);
         lit "PC="; Group "user" (Star any_but_nl); lit " ";
         Star (not_char newline);
         lit "Pawn=CameraMan_C_" ].

(** [_match_admincam], unpossess:
    [\[(?P<time>[^\]]+)\]\[(?P<log_id>[0-9]+)\][^\n]*ASQPlayerController::UnPossess[^\n]*PC=(?P<user>.* )] *)
Definition unpossess_rx : rx :=
  seqs [ lit "["; Group "time" (plus (not_char rbr)); lit "]";
         lit "["; Group "log_id" (plus is_digit); lit "]";
         Star (not_char newline);
         lit "ASQPlayerController::UnPossess";
         Star (not_char newline);
         lit "PC="; Group "user" (Star any_but_nl) ].

End Patterns.

(* ------------------------------------------------------------------ *)
(** ** What a pattern reads and captures *)

Module ReSpec.
Import Re.

(** Every character of [s] satisfies [p]. *)
Fixpoint all_chars (p : ascii -> bool) (s : string) : bool :=
  match s with
  | EmptyString => true
  | String c s' => p c && all_chars p s'
  end.

(** [r] only ever consumes characters satisfying [p]. *)
Fixpoint only_chars (p : ascii -> bool) (r : rx) : Prop :=
  match r with
  | Chr q | Star q => forall c, q c = true -> p c = true
  | Seq r1 r2 | Alt r1 r2 => only_chars p r1 /\ only_chars p r2
  | Group _ r1 => only_chars p r1
  | Eps => True
  end.

(** [r] consumes at least one character. *)
Fixpoint nonempty (r : rx) : Prop :=
  match r with
  | Chr _ => True
  | Seq r1 r2 => nonempty r1 \/ nonempty r2
  | Alt r1 r2 => nonempty r1 /\ nonempty r2
  | Group _ r1 => nonempty r1
  | Star _ | Eps => False
  end.

(** The groups every match of [r] sets. *)
Fixpoint must (r : rx) : list string :=
  match r with
  | Seq r1 r2 => (must r1 ++ must r2)%list
  | Group n r1 => n :: must r1
  | _ => []
  end.

(** A captured group [(n, v)] has the characters [gp n] allows, and is
    non-empty when [ne n] says so. *)
Definition group_ok (gp : string -> ascii -> bool) (ne : string -> bool)
    (nv : string * string) : Prop :=
  all_chars (gp (fst nv)) (snd nv) = true /\ (ne (fst nv) = true -> snd nv <> "").

(** Every group of [r] reads only characters of [gp n], and a
    non-empty string when [ne n]. *)
Fixpoint wf (gp : string -> ascii -> bool) (ne : string -> bool) (r : rx) : Prop :=
  match r with
  | Seq r1 r2 | Alt r1 r2 => wf gp ne r1 /\ wf gp ne r2
  | Group n r1 => only_chars (gp n) r1 /\ (ne n = true -> nonempty r1) /\ wf gp ne r1
  | _ => True
  end.

(** [r] reads exactly [w] as its first choice, adding the groups [added]:
    whatever follows, the match proceeds past [w] if the rest of the
    pattern succeeds there. *)
Definition consumes (r : rx) (w : string) (added : captures) : Prop :=
  forall (T : Type) rest caps (k : string -> captures -> option T) x,
    k rest (added ++ caps)%list = Some x -> mtch r (w ++ rest) caps k = Some x.

(** The same, for a pattern that ends the match at the end of [w]. *)
Definition consumes_end (r : rx) (w : string) (added : captures) : Prop :=
  forall (T : Type) caps (k : string -> captures -> option T) x,
    k "" (added ++ caps)%list = Some x -> mtch r w caps k = Some x.

(** [r] never matches at the start of [w ++ rest]. *)
Definition fails (r : rx) (w : string) : Prop :=
  forall (T : Type) rest caps (k : string -> captures -> option T),
    mtch r (w ++ rest) caps k = None.

(** The character predicates of the groups of the damage and teamkill
    patterns. *)
Definition group_chars (n : string) : ascii -> bool :=
  if String.eqb n "time" then not_char Patterns.rbr
  else if String.eqb n "log_id" then is_digit
  else if String.eqb n "weapon" then not_char "_"%char
  else any_but_nl.

Definition group_nonempty (n : string) : bool :=
  String.eqb n "time" || String.eqb n "log_id".

End ReSpec.

(* ------------------------------------------------------------------ *)
(** ** [datetime.strptime(s, "%Y.%m.%d-%H.%M.%S:%f")] *)

Module Time.
Import Re.
Local Open Scope Z_scope.

Record datetime := mkDatetime {
  year : Z; month : Z; day : Z;
  hour : Z; minute : Z; second : Z; microsecond : Z }.

(** [int(s)] on a string of ASCII digits *)
Fixpoint int_acc (acc : Z) (s : string) : Z :=
  match s with
  | String c s' => int_acc (acc * 10 + (Z.of_nat (Ascii.nat_of_ascii c) - 48)) s'
  | EmptyString => acc
  end.
Definition int (s : string) : Z := int_acc 0 s.

Definition d : rx := Chr is_digit.
Definition rng (lo hi : nat) : rx := Chr (digit_range lo hi).

(** [x{0,n}], greedy *)
Fixpoint upto (n : nat) (r : rx) : rx :=
  match n with
  | O => Eps
  | S n' => Alt (Seq r (upto n' r)) Eps
  end.

(** The regular expression [_strptime.TimeRE] compiles for the format
    ([.] escaped, [-] and [:] literal). *)
Definition strptime_rx : rx :=
  seqs [ Group "Y" (seqs [d; d; d; d]);
         lit ".";
         Group "m" (alts [Seq (lit "1") (rng 0 2); Seq (lit "0") (rng 1 9); rng 1 9]);
         lit ".";
         Group "d" (alts [Seq (lit "3") (rng 0 1); Seq (rng 1 2) d;
                          Seq (lit "0") (rng 1 9); rng 1 9; Seq (lit " ") (rng 1 9)]);
         lit "-";
         Group "H" (alts [Seq (lit "2") (rng 0 3); Seq (rng 0 1) d; d]);
         lit ".";
         Group "M" (alts [Seq (rng 0 5) d; d]);
         lit ".";
         Group "S" (alts [Seq (lit "6") (rng 0 1); Seq (rng 0 5) d; d]);
         lit ":";
         Group "f" (Seq d (upto 5 d)) ].

Definition leap (y : Z) : bool :=
  (Z.eqb (y mod 4) 0 && negb (Z.eqb (y mod 100) 0)) || Z.eqb (y mod 400) 0.

Definition days_in_month (y m : Z) : Z :=
  if Z.eqb m 2 then (if leap y then 29 else 28)
  else if existsb (Z.eqb m) [4; 6; 9; 11]%Z then 30 else 31.

(** [None] is the [ValueError] of [strptime]: no match, unconverted data
    remains, or the [datetime] constructor rejects a field (year 0,
    day past the end of the month, second 60 or 61). *)
Definition strptime (s : string) : option datetime :=
  match match_prefix strptime_rx s with
  | Some (EmptyString, caps) =>
      match group "Y" caps, group "m" caps, group "d" caps,
            group "H" caps, group "M" caps, group "S" caps, group "f" caps with
      | Some y, Some mo, Some dd, Some h, Some mi, Some se, Some f =>
          let t := {| year := int y; month := int mo; day := int dd;
                      hour := int h; minute := int mi; second := int se;
                      microsecond := int f * 10 ^ (6 - Z.of_nat (String.length f)) |} in
          if (1 <=? year t) && (day t <=? days_in_month (year t) (month t))
             && (second t <=? 59)
          then Some t else None
      | _, _, _, _, _, _, _ => None
      end
  | _ => None
  end.

(** A decimal digit [0 <= n <= 9] as a character. *)
Definition digit (n : Z) : ascii := Ascii.ascii_of_nat (48 + Z.to_nat n).

(** [%m], [%d], [%H], [%M], [%S]: two digits, zero-padded. *)
Definition pad2 (n : Z) : string :=
  String (digit (n / 10)) (String (digit (n mod 10)) "").

(** [%Y]: four digits, zero-padded (every platform agrees on this for the
    years 1000 to 9999). *)
Definition pad4 (n : Z) : string :=
  String (digit (n / 1000)) (String (digit (n / 100 mod 10))
    (String (digit (n / 10 mod 10)) (String (digit (n mod 10)) ""))).

End Time.

(* ------------------------------------------------------------------ *)
(** ** [TKMonitor]: state, effects and line processing *)

Module TKMonitor.
Import Re Patterns Time.

(** A buffered match object of the damage pattern, by its groups. *)
Record damage := mkDamage {
  dm_time : string; dm_log_id : string;
  dm_victim : string; dm_killer : string; dm_weapon : string }.

(** [TeamKill(time_utc, victim, killer, weapon)]; [timezone("UTC").localize]
    only attaches the zone, so the time is the parsed naive datetime. *)
Record teamkill := mkTeamKill {
  time_utc : datetime; victim : string; killer : string; weapon : string }.

(** One line [f"[{time_utc_str} UTC] {change}: {user}"] of admincam.log,
    by its fields. *)
Record audit_entry := mkAudit {
  ae_time : datetime; ae_change : string; ae_user : string }.

(** The instance fields of a [TKMonitor] used by the line processing,
    together with the admincam.log file they append to: its lines, and
    whether [open(self.admincam_log_filename, "a")] succeeds. *)
Record tkmonitor := mkMonitor {
  recent_damages : list damage;
  seen_tks : gset string;
  last_log_id : Z;
  active_admin_cam_users : gset string;
  admincam_log : list audit_entry;
  admincam_log_writable : bool }.

(** [TKMonitor.__init__] (the log file starts empty here). *)
Definition init (writable : bool) : tkmonitor :=
  {| recent_damages := []; seen_tks := ∅; last_log_id := 0;
     active_admin_cam_users := ∅; admincam_log := [];
     admincam_log_writable := writable |}.

Definition set_recent_damages (w : list damage) (st : tkmonitor) : tkmonitor :=
  {| recent_damages := w; seen_tks := seen_tks st; last_log_id := last_log_id st;
     active_admin_cam_users := active_admin_cam_users st;
     admincam_log := admincam_log st; admincam_log_writable := admincam_log_writable st |}.
Definition set_seen_tks (s : gset string) (st : tkmonitor) : tkmonitor :=
  {| recent_damages := recent_damages st; seen_tks := s; last_log_id := last_log_id st;
     active_admin_cam_users := active_admin_cam_users st;
     admincam_log := admincam_log st; admincam_log_writable := admincam_log_writable st |}.
Definition set_last_log_id (n : Z) (st : tkmonitor) : tkmonitor :=
  {| recent_damages := recent_damages st; seen_tks := seen_tks st; last_log_id := n;
     active_admin_cam_users := active_admin_cam_users st;
     admincam_log := admincam_log st; admincam_log_writable := admincam_log_writable st |}.
Definition set_active (u : gset string) (st : tkmonitor) : tkmonitor :=
  {| recent_damages := recent_damages st; seen_tks := seen_tks st; last_log_id := last_log_id st;
     active_admin_cam_users := u;
     admincam_log := admincam_log st; admincam_log_writable := admincam_log_writable st |}.
Definition set_admincam_log (l : list audit_entry) (st : tkmonitor) : tkmonitor :=
  {| recent_damages := recent_damages st; seen_tks := seen_tks st; last_log_id := last_log_id st;
     active_admin_cam_users := active_admin_cam_users st;
     admincam_log := l; admincam_log_writable := admincam_log_writable st |}.

(** Python exceptions that can escape the line processing. *)
Inductive exn := ValueError | OSError.

(** A method call returns or raises; either way [self] keeps the
    mutations made so far. *)
Inductive outcome (A : Type) :=
| Ret (a : A) (st : tkmonitor)
| Raise (e : exn) (st : tkmonitor).
Arguments Ret {A} a st.
Arguments Raise {A} e st.

Definition M (A : Type) : Type := tkmonitor -> outcome A.

Global Instance M_ret : MRet M := fun A a st => Ret a st.
Global Instance M_bind : MBind M := fun A B f m st =>
  match m st with
  | Ret a st' => f a st'
  | Raise e st' => Raise e st'
  end.

Definition get : M tkmonitor := fun st => Ret st st.
Definition modify (f : tkmonitor -> tkmonitor) : M unit := fun st => Ret tt (f st).
Definition raise {A} (e : exn) : M A := fun st => Raise e st.

Definition grp (name : string) (caps : captures) : string :=
  default "" (group name caps).

(** [datetime.strptime(time_str, "%Y.%m.%d-%H.%M.%S:%f")], raising
    [ValueError] when the string is rejected. *)
Definition parse_time (time_str : string) : M datetime :=
  match strptime time_str with
  | Some t => mret t
  | None => raise ValueError
  end.

(** [self.recent_damages.append(d)] then
    [if len(self.recent_damages) > 20: del self.recent_damages[0]] *)
Definition push_damage (d : damage) (w : list damage) : list damage :=
  let w' := (w ++ [d])%list in
  if (20 <? length w')%nat then tail w' else w'.

Definition damage_of (caps : captures) : damage :=
  {| dm_time := grp "time" caps; dm_log_id := grp "log_id" caps;
     dm_victim := grp "victim" caps; dm_killer := grp "killer" caps;
     dm_weapon := grp "weapon" caps |}.

(** [_match_damage] *)
Definition match_damage (line : string) : M bool :=
  match search damage_rx line with
  | None => mret false
  | Some caps =>
      _ ← modify (fun st => set_recent_damages
                              (push_damage (damage_of caps) (recent_damages st)) st);
      mret true
  end.

(** [for dmg in self.recent_damages: if dmg.group("log_id") == log_id: ...]:
    the first buffered damage with this log id. *)
Definition find_damage (log_id : string) (w : list damage) : option damage :=
  List.find (fun dm => String.eqb (dm_log_id dm) log_id) w.

(** [_match_teamkill] *)
Definition match_teamkill (line : string) : M (option teamkill) :=
  match search teamkill_rx line with
  | None => mret None
  | Some caps =>
      let log_id := grp "log_id" caps in
      (* delete duplicate info on log id wrap-around *)
      _ ← modify (fun st => if (int log_id + 500 <? last_log_id st)%Z
                            then set_seen_tks ∅ st else st);
      _ ← modify (set_last_log_id (int log_id));
      st ← get;
      (* check for duplicate *)
      if decide (log_id ∈ seen_tks st) then mret None
      else
        match find_damage log_id (recent_damages st) with
        | None => mret None
        | Some dm =>
            t ← parse_time (dm_time dm);
            let tk := {| time_utc := t; victim := dm_victim dm;
                         killer := dm_killer dm; weapon := dm_weapon dm |} in
            _ ← modify (fun st => set_seen_tks ({[log_id]} ∪ seen_tks st) st);
            mret (Some tk)
        end
  end.

(** The tail of [_match_admincam] once a transition is recognised:
    format the time and append one line to admincam.log. *)
Definition log_admincam (caps : captures) (change : string) : M bool :=
  t ← parse_time (grp "time" caps);
  st ← get;
  if admincam_log_writable st then
    _ ← modify (fun st => set_admincam_log
                  ((admincam_log st ++ [{| ae_time := t; ae_change := change;
                                          ae_user := grp "user" caps |}])%list) st);
    mret true
  else raise OSError.

Definition ENTER : string := "++++++++++++ ENTER".
Definition LEAVE : string := "--- POSSIBLE LEAVE".

(** [time_utc.strftime("%Y.%m.%d - %H:%M:%S")] *)
Definition strftime_admincam (t : datetime) : string :=
  pad4 (year t) ++ "." ++ pad2 (month t) ++ "." ++ pad2 (day t) ++ " - " ++
  pad2 (hour t) ++ ":" ++ pad2 (minute t) ++ ":" ++ pad2 (second t).

(** The text [f.write(log_message + "\n")] appends for an entry, with
    [log_message = f"[{time_utc_str} UTC] {change}: {user}"]. *)
Definition admincam_line (e : audit_entry) : string :=
  "[" ++ strftime_admincam (ae_time e) ++ " UTC] " ++ ae_change e ++ ": " ++ ae_user e ++
  String newline "".

(** [_match_admincam] *)
Definition match_admincam (line : string) : M bool :=
  match search possess_rx line with
  | Some caps =>
      _ ← modify (fun st => set_active ({[grp "user" caps]} ∪ active_admin_cam_users st) st);
      log_admincam caps ENTER
  | None =>
      match search unpossess_rx line with
      | Some caps =>
          st ← get;
          if decide (grp "user" caps ∉ active_admin_cam_users st) then
            (* false positive *)
            mret false
          else
            _ ← modify (fun st => set_active (active_admin_cam_users st ∖ {[grp "user" caps]}) st);
            log_admincam caps LEAVE
      | None => mret false
      end
  end.

(** [parse_line] *)
Definition parse_line (line : string) : M (option teamkill) :=
  match_admincam line ≫= fun b : bool =>
  if b then mret None else
  match_damage line ≫= fun b' : bool =>
  if b' then mret None else
  match_teamkill line.

(** [tk_follow] over a finite sequence of lines: the teamkills yielded. *)
Fixpoint tk_follow_lines (lines : list string) : M (list teamkill) :=
  match lines with
  | [] => mret []
  | line :: lines' =>
      parse_line line ≫= fun r : option teamkill =>
      tk_follow_lines lines' ≫= fun rest : list teamkill =>
      mret (match r with Some tk => tk :: rest | None => rest end)
  end.

(** [tk_follow] as the generator it is: the teamkills yielded, in order,
    until the lines run out or [parse_line] raises (the exception ends the
    generator; what was yielded before has been handed out already). *)
Fixpoint tk_follow_gen (lines : list string) (st : tkmonitor)
    : list teamkill * option exn * tkmonitor :=
  match lines with
  | [] => ([], None, st)
  | line :: lines' =>
      match parse_line line st with
      | Ret (Some tk) st' =>
          let '(ys, e, st'') := tk_follow_gen lines' st' in (tk :: ys, e, st'')
      | Ret None st' => tk_follow_gen lines' st'
      | Raise e st' => ([], Some e, st')
      end
  end.

(** The value a call returned, if it did not raise. *)
Definition result {A} (o : outcome A) : option A :=
  match o with Ret a _ => Some a | Raise _ _ => None end.

(** The state [self] is left in by a call, whether it returned or raised. *)
Definition final_state {A} (o : outcome A) : tkmonitor :=
  match o with Ret _ st => st | Raise _ st => st end.

(** [parse_line] reaches [_match_teamkill] on this line and its
    wrap-around test fires there, clearing [self.seen_tks]. *)
Definition wrap_fires (line : string) (st : tkmonitor) : bool :=
  match match_admincam line st with
  | Ret false st1 =>
      match match_damage line st1 with
      | Ret false st2 =>
          match search teamkill_rx line with
          | Some caps => (int (grp "log_id" caps) + 500 <? last_log_id st2)%Z
          | None => false
          end
      | _ => false
      end
  | _ => false
  end.

(** [tk_follow] feeding lines to [parse_line], each returning normally
    (an exception ends the task: nothing in [run_tkm] catches it). *)
Inductive run : tkmonitor -> list string -> tkmonitor -> Prop :=
| run_nil st : run st [] st
| run_cons st line r st' lines st'' :
    parse_line line st = Ret r st' ->
    run st' lines st'' ->
    run st (line :: lines) st''.

(** The same, with no wrap-around clear on the way. *)
Inductive run_nowrap : tkmonitor -> list string -> tkmonitor -> Prop :=
| rnw_nil st : run_nowrap st [] st
| rnw_cons st line r st' lines st'' :
    parse_line line st = Ret r st' ->
    wrap_fires line st = false ->
    run_nowrap st' lines st'' ->
    run_nowrap st (line :: lines) st''.

(** The change recorded by the most recent admincam.log line of a user. *)
Definition last_change (u : string) (log : list audit_entry) : option string :=
  fold_left (fun acc e => if String.eqb (ae_user e) u then Some (ae_change e) else acc)
            log None.

End TKMonitor.

(* ------------------------------------------------------------------ *)
(** ** [_log_follow] *)

Module Follow.
Import Re TKMonitor.

(** The local variables of [_log_follow]: the read position of [f], the
    recorded [file_size] and [line_counter]. The file is its current text
    (already decoded), written and truncated by the game server between
    steps. *)
Record follower := mkFollower {
  f_pos : nat; file_size : nat; line_counter : nat }.

(** [_open_log_file]: a new handle positioned at the end, and the size. *)
Definition open_log_file (content : string) : nat * nat :=
  (String.length content, String.length content).

Definition start (content : string) : follower :=
  let (pos, size) := open_log_file content in
  {| f_pos := pos; file_size := size; line_counter := 0 |}.

(** Length of the first line of [s], its newline included. *)
Fixpoint line_length (s : string) : nat :=
  match s with
  | EmptyString => 0
  | String c s' => if Ascii.eqb c newline then 1 else S (line_length s')
  end.

(** [f.readline()]: "" at end of file. This is what Python's text-mode
    [readline] returns on [plain_text] below; on other text it does not
    translate newlines and has no [UnicodeDecodeError]. *)
Definition readline (content : string) (pos : nat) : string :=
  let rest := sdrop pos content in stake (line_length rest) rest.

(** The text on which [readline] and [read_step] are exactly what the file
    opened with [open(fd, encoding="UTF-8")] gives: ASCII characters, so
    every byte decodes on its own (no [UnicodeDecodeError], hence no
    [DECODE_ERROR] line) and positions and sizes are byte counts; and no
    carriage return, so the universal-newline translation of CR LF and CR
    changes nothing. *)
Definition plain_text (s : string) : bool :=
  ReSpec.all_chars
    (fun c => (Ascii.nat_of_ascii c <? 128)%nat && negb (Ascii.eqb c "013"%char)) s.

(** One iteration of the inner [while True] loop: [None] is its [break]. *)
Definition read_step (content : string) (fs : follower) : option (string * follower) :=
  let line := readline content (f_pos fs) in
  match line with
  | EmptyString => None
  | _ =>
      let size := if Nat.eqb (line_counter fs) 0 then String.length content
                  else file_size fs in
      Some (line, {| f_pos := f_pos fs + String.length line; file_size := size;
                     line_counter := Nat.modulo (line_counter fs + 1) 1000 |})
  end.

(** The truncation check after the inner loop: on a shrunk file, close and
    re-open it ([line_counter] is a local of the generator and survives). *)
Definition check_truncation (content : string) (fs : follower) : follower :=
  if Nat.ltb (String.length content) (file_size fs) then
    let (pos, size) := open_log_file content in
    {| f_pos := pos; file_size := size; line_counter := line_counter fs |}
  else fs.

(** The inner [while True] loop run to its [break], the file unchanged
    meanwhile: the lines read, and the follower at end of file. *)
Inductive drain (content : string) : follower -> list string -> follower -> Prop :=
| drain_eof fs : read_step content fs = None -> drain content fs [] fs
| drain_line fs line fs' lines fs'' :
    read_step content fs = Some (line, fs') ->
    drain content fs' lines fs'' ->
    drain content fs (line :: lines) fs''.

(** [tk_follow]: a line read is handed to [parse_line]; at end of file the
    truncation check runs, then the generator sleeps. *)
Inductive step (content : string) :
    tkmonitor * follower -> tkmonitor * follower -> Prop :=
| step_line st fs line fs' r st' :
    read_step content fs = Some (line, fs') ->
    parse_line line st = Ret r st' ->
    step content (st, fs) (st', fs')
| step_poll st fs :
    read_step content fs = None ->
    step content (st, fs) (st, check_truncation content fs).

End Follow.


(* ------------------------------------------------------------------ *)
(** ** Sample log lines *)

Module Samples.
Import TKMonitor.

Definition damage_line : string :=
  "[2024.01.01-00.00.00:000][55]LogSquad: Player:V ActualDamage=10.0 from K caused by BP_AK47_C_2".

(** The same damage line with a time field [strptime] rejects. *)
Definition damage_line_bad_time : string :=
  "[x][55]LogSquad: Player:V ActualDamage=10.0 from K caused by BP_AK47_C_2".

Definition teamkill_line (log_id : string) : string :=
  "[2024.01.01-00.00.00:000][" ++ log_id ++ "]LogSquadScorePoints: Verbose: ScorePoints: Points: -500.000000 ScoreEvent: TeamKilled K".

Definition possess_line (user : string) : string :=
  "[2024.01.01-00.00.00:000][5]LogSquad: ASQPlayerController::Possess(): PC=" ++ user ++ " Pawn=CameraMan_C_2147".

Definition unpossess_line (user : string) : string :=
  "[2024.01.01-00.00.00:000][6]LogSquad: ASQPlayerController::UnPossess(): PC=" ++ user.

(** An unpossess line that the teamkill pattern also matches. *)
Definition unpossess_teamkill_line : string :=
  "[2024.01.01-00.00.00:000][7]LogSquad: ASQPlayerController::UnPossess(): PC=Bob LogSquadScorePoints: TeamKilled".

Definition time0 : string := "2024.01.01-00.00.00:000".

Definition damage_caps : Re.captures :=
  [("weapon", "AK47"); ("killer", "K"); ("victim", "V"); ("log_id", "55"); ("time", time0)].

Definition cam_caps (user log_id : string) : Re.captures :=
  [("user", user); ("log_id", log_id); ("time", time0)].

(** A monitor with [user] in admin cam, admincam.log writable or not. *)
Definition with_active (user : string) (writable : bool) : tkmonitor :=
  set_active {[user]} (init writable).

(** [n] zero digits. *)
Fixpoint zeros (n : nat) : string :=
  match n with O => "" | S n' => String "0" (zeros n') end.

(** The damage of log id 55 with the time field [time]. *)
Definition damage_with_time (time : string) : damage :=
  {| dm_time := time; dm_log_id := "55";
     dm_victim := "V"; dm_killer := "K"; dm_weapon := "AK47" |}.

Definition damage_with_id (log_id : string) : damage :=
  {| dm_time := time0; dm_log_id := log_id;
     dm_victim := "V"; dm_killer := "K"; dm_weapon := "AK47" |}.

(** A file of [n] bytes. *)
Fixpoint file_of_size (n : nat) : string :=
  match n with O => "" | S n' => String " " (file_of_size n') end.

Definition damage_V_K : damage :=
  {| dm_time := "2024.01.01-00.00.00:000"; dm_log_id := "55";
     dm_victim := "V"; dm_killer := "K"; dm_weapon := "AK47" |}.

Definition teamkill_V_K : teamkill :=
  {| time_utc := Time.mkDatetime 2024 1 1 0 0 0 0;
     victim := "V"; killer := "K"; weapon := "AK47" |}.

(** A monitor whose last teamkill had log id 1000. *)
Definition monitor_at_1000 (seen : gset string) (w : list damage) : tkmonitor :=
  {| recent_damages := w; seen_tks := seen; last_log_id := 1000;
     active_admin_cam_users := ∅; admincam_log := []; admincam_log_writable := true |}.

Definition with_damages (w : list damage) : tkmonitor := set_recent_damages w (init true).

(** The time field the server writes, [YYYY.MM.DD-hh.mm.ss:f] with [f]
    the fraction digits. *)
Definition server_time (y mo dd h mi se : Z) (f : string) : string :=
  Time.pad4 y ++ "." ++ Time.pad2 mo ++ "." ++ Time.pad2 dd ++ "-" ++ Time.pad2 h ++ "." ++
  Time.pad2 mi ++ "." ++ Time.pad2 se ++ ":" ++ f.

(** The groups of a buffered damage are what the damage pattern lets
    them be: a non-empty time without [\]], a non-empty digit log id,
    a weapon without [_], and victim and killer within one line. *)
Definition damage_ok (dm : damage) : Prop :=
  (ReSpec.all_chars (Re.not_char Patterns.rbr) (dm_time dm) = true) /\ (dm_time dm <> "") /\
  (ReSpec.all_chars Re.is_digit (dm_log_id dm) = true) /\ (dm_log_id dm <> "") /\
  (ReSpec.all_chars (Re.not_char "_"%char) (dm_weapon dm) = true) /\
  (ReSpec.all_chars Re.any_but_nl (dm_victim dm) = true) /\
  (ReSpec.all_chars Re.any_but_nl (dm_killer dm) = true).

End Samples.

(* ------------------------------------------------------------------ *)
(** ** Unfolding the methods *)

Module Facts.
Import Re Patterns Time TKMonitor.

(** Decide a closed decidable proposition by evaluation. *)
Ltac decide_closed :=
  match goal with |- ?P => apply (bool_decide_unpack P); vm_compute; exact I end.

Ltac mrun := unfold mbind, M_bind, mret, M_ret, modify, get, raise in *; cbn beta iota zeta in *.

Definition tk_of (t : datetime) (dm : damage) : teamkill :=
  {| time_utc := t; victim := dm_victim dm; killer := dm_killer dm; weapon := dm_weapon dm |}.

(** The state [_match_teamkill] has reached when it checks for a duplicate. *)
Definition after_wrap (log_id : string) (st : tkmonitor) : tkmonitor :=
  set_last_log_id (int log_id)
    (if (int log_id + 500 <? last_log_id st)%Z then set_seen_tks ∅ st else st).

(** Who is in [active_admin_cam_users] is who was last logged entering. *)
Definition cam_inv (st : tkmonitor) : Prop :=
  forall u, u ∈ active_admin_cam_users st <-> last_change u (admincam_log st) = Some ENTER.

(** The last [n] elements of a list, in order. *)
Definition lastn {A} (n : nat) (l : list A) : list A := skipn (length l - n) l.

Lemma match_damage_eq line st :
  match_damage line st =
  match search damage_rx line with
  | None => Ret false st
  | Some caps => Ret true (set_recent_damages
                             (push_damage (damage_of caps) (recent_damages st)) st)
  end.
Proof. unfold match_damage. destruct (search damage_rx line); reflexivity. Qed.

Lemma match_teamkill_eq line st :
  match_teamkill line st =
  match search teamkill_rx line with
  | None => Ret None st
  | Some caps =>
      let log_id := grp "log_id" caps in
      let st1 := after_wrap log_id st in
      if decide (log_id ∈ seen_tks st1) then Ret None st1 else
      match find_damage log_id (recent_damages st1) with
      | None => Ret None st1
      | Some dm =>
          match strptime (dm_time dm) with
          | None => Raise ValueError st1
          | Some t => Ret (Some (tk_of t dm)) (set_seen_tks ({[log_id]} ∪ seen_tks st1) st1)
          end
      end
  end.
Proof.
  unfold match_teamkill, after_wrap, parse_time. destruct (search teamkill_rx line) as [caps|]; [|reflexivity].
  mrun. destruct (decide _); [reflexivity|].
  destruct (find_damage _ _) as [dm|]; [|reflexivity].
  mrun. destruct (strptime (dm_time dm)); reflexivity.
Qed.

Lemma log_admincam_eq caps change st :
  log_admincam caps change st =
  match strptime (grp "time" caps) with
  | None => Raise ValueError st
  | Some t =>
      if admincam_log_writable st then
        Ret true (set_admincam_log
                    (admincam_log st ++ [{| ae_time := t; ae_change := change;
                                            ae_user := grp "user" caps |}])%list st)
      else Raise OSError st
  end.
Proof.
  unfold log_admincam, parse_time. destruct (strptime _); mrun; [|reflexivity].
  destruct (admincam_log_writable st); reflexivity.
Qed.

Lemma match_admincam_eq line st :
  match_admincam line st =
  match search possess_rx line with
  | Some caps =>
      log_admincam caps ENTER
        (set_active ({[grp "user" caps]} ∪ active_admin_cam_users st) st)
  | None =>
      match search unpossess_rx line with
      | Some caps =>
          if decide (grp "user" caps ∉ active_admin_cam_users st) then Ret false st
          else log_admincam caps LEAVE
                 (set_active (active_admin_cam_users st ∖ {[grp "user" caps]}) st)
      | None => Ret false st
      end
  end.
Proof.
  unfold match_admincam. destruct (search possess_rx line); mrun; [reflexivity|].
  destruct (search unpossess_rx line); mrun; [|reflexivity].
  destruct (decide _); reflexivity.
Qed.

Lemma parse_line_eq line st :
  parse_line line st =
  match match_admincam line st with
  | Ret true st1 => Ret None st1
  | Ret false st1 =>
      match match_damage line st1 with
      | Ret true st2 => Ret None st2
      | Ret false st2 => match_teamkill line st2
      | Raise e st2 => Raise e st2
      end
  | Raise e st1 => Raise e st1
  end.
Proof.
  unfold parse_line. mrun. destruct (match_admincam line st) as [[|] st1|e st1]; try reflexivity.
  destruct (match_damage line st1) as [[|] st2|e st2]; reflexivity.
Qed.

Lemma after_wrap_seen_sub id st : seen_tks (after_wrap id st) ⊆ seen_tks st.
Proof. unfold after_wrap. destruct (_ <? _)%Z; simpl; set_solver. Qed.

Lemma after_wrap_recent id st : recent_damages (after_wrap id st) = recent_damages st.
Proof. unfold after_wrap. destruct (_ <? _)%Z; reflexivity. Qed.

Lemma after_wrap_last id st : last_log_id (after_wrap id st) = int id.
Proof. reflexivity. Qed.

Lemma match_teamkill_hit line st caps dm :
  search teamkill_rx line = Some caps ->
  grp "log_id" caps ∉ seen_tks st ->
  find_damage (grp "log_id" caps) (recent_damages st) = Some dm ->
  match_teamkill line st =
  match strptime (dm_time dm) with
  | None => Raise ValueError (after_wrap (grp "log_id" caps) st)
  | Some t =>
      Ret (Some (tk_of t dm))
        (set_seen_tks ({[grp "log_id" caps]} ∪ seen_tks (after_wrap (grp "log_id" caps) st))
           (after_wrap (grp "log_id" caps) st))
  end.
Proof.
  intros Hs Hn Hf. rewrite match_teamkill_eq, Hs. cbn zeta.
  destruct (decide _) as [Hin|_].
  { exfalso. apply Hn. apply (after_wrap_seen_sub (grp "log_id" caps) st). exact Hin. }
  rewrite after_wrap_recent, Hf. reflexivity.
Qed.

Lemma find_damage_push id dm w :
  find_damage id w = None -> dm_log_id dm = id ->
  find_damage id (push_damage dm w) = Some dm.
Proof.
  intros Hw Hd. unfold push_damage.
  assert (Happ : find_damage id (w ++ [dm])%list = Some dm).
  { unfold find_damage in *. clear -Hw Hd. induction w as [|x w IH]; simpl in *.
    - rewrite Hd, String.eqb_refl. reflexivity.
    - destruct (String.eqb (dm_log_id x) id); [discriminate|]. exact (IH Hw). }
  destruct (20 <? length (w ++ [dm])%list)%nat eqn:E; [|exact Happ].
  destruct w as [|x w']; [discriminate E|].
  unfold find_damage in *. simpl in *.
  destruct (String.eqb (dm_log_id x) id); [discriminate|].
  exact Happ.
Qed.

Lemma push_lastn (d : damage) (pre : list damage) :
  push_damage d (lastn 20 pre) = lastn 20 (pre ++ [d])%list.
Proof.
  unfold push_damage, lastn. cbn zeta. rewrite !length_app, length_skipn. cbn [length].
  destruct (Nat.lt_ge_cases (length pre) 20) as [Hlt|Hge].
  - replace (length pre - 20) with 0 by lia.
    replace (length pre + 1 - 20) with 0 by lia.
    replace (length pre - 0 + 1) with (length pre + 1) by lia.
    destruct (20 <? length pre + 1)%nat eqn:E; [apply Nat.ltb_lt in E; lia|].
    reflexivity.
  - replace (length pre - (length pre - 20) + 1) with 21 by lia.
    replace (length pre + 1 - 20) with (S (length pre - 20)) by lia.
    cbn [Nat.ltb Nat.leb].
    rewrite skipn_app. replace (S (length pre - 20) - length pre) with 0 by lia.
    destruct (skipn (length pre - 20) pre) as [|x r] eqn:E.
    + apply (f_equal (@length damage)) in E. rewrite length_skipn in E. simpl in E. lia.
    + assert (Hr : skipn (1 + (length pre - 20)) pre = r)
        by (rewrite <- skipn_skipn, E; reflexivity).
      simpl in Hr. rewrite Hr. reflexivity.
Qed.

Lemma fold_push_lastn (ds pre : list damage) :
  fold_left (fun w d => push_damage d w) ds (lastn 20 pre) = lastn 20 (pre ++ ds)%list.
Proof.
  revert pre. induction ds as [|d ds IH]; intros pre; simpl.
  - rewrite app_nil_r. reflexivity.
  - rewrite push_lastn, IH, <- app_assoc. reflexivity.
Qed.

Lemma match_admincam_frame line st :
  recent_damages (final_state (match_admincam line st)) = recent_damages st /\
  seen_tks (final_state (match_admincam line st)) = seen_tks st /\
  last_log_id (final_state (match_admincam line st)) = last_log_id st.
Proof.
  rewrite match_admincam_eq.
  destruct (search possess_rx line) as [caps|].
  - rewrite log_admincam_eq. destruct (strptime _); [destruct (admincam_log_writable _)|]; simpl; auto.
  - destruct (search unpossess_rx line) as [caps|]; [|simpl; auto].
    destruct (decide _); [simpl; auto|].
    rewrite log_admincam_eq. destruct (strptime _); [destruct (admincam_log_writable _)|]; simpl; auto.
Qed.

Lemma match_admincam_false line st st' :
  match_admincam line st = Ret false st' -> st' = st.
Proof.
  rewrite match_admincam_eq.
  destruct (search possess_rx line) as [caps|].
  - rewrite log_admincam_eq. destruct (strptime _); [destruct (admincam_log_writable _)|];
      intros H; inversion H.
  - destruct (search unpossess_rx line) as [caps|]; [|intros H; inversion H; reflexivity].
    destruct (decide _); [intros H; inversion H; reflexivity|].
    rewrite log_admincam_eq. destruct (strptime _); [destruct (admincam_log_writable _)|];
      intros H; inversion H.
Qed.

Lemma match_damage_false line st st' :
  match_damage line st = Ret false st' -> st' = st.
Proof.
  rewrite match_damage_eq. destruct (search damage_rx line); intros H; inversion H; reflexivity.
Qed.

Lemma match_teamkill_seen_grows line st r st' :
  match_teamkill line st = Ret r st' ->
  match search teamkill_rx line with
  | Some caps => (int (grp "log_id" caps) + 500 <? last_log_id st)%Z
  | None => false
  end = false ->
  seen_tks st ⊆ seen_tks st'.
Proof.
  rewrite match_teamkill_eq. destruct (search teamkill_rx line) as [caps|].
  2:{ intros H _. inversion H. subst. reflexivity. }
  intros H Hw. cbn zeta in H. unfold after_wrap in H. rewrite Hw in H.
  destruct (decide _).
  { inversion H; subst. simpl. reflexivity. }
  destruct (find_damage _ _) as [dm|]; [destruct (strptime _)|];
    inversion H; subst; simpl; set_solver.
Qed.

Lemma parse_line_seen_grows line st r st' :
  parse_line line st = Ret r st' -> wrap_fires line st = false ->
  seen_tks st ⊆ seen_tks st'.
Proof.
  rewrite parse_line_eq. unfold wrap_fires.
  pose proof (match_admincam_frame line st) as (_ & Ha & _).
  destruct (match_admincam line st) as [[|] st1|e st1] eqn:Ea; simpl in Ha.
  - intros H _. inversion H; subst. rewrite Ha. reflexivity.
  - apply match_admincam_false in Ea. subst st1.
    rewrite match_damage_eq.
    destruct (search damage_rx line) as [caps|].
    + intros H _. inversion H; subst. reflexivity.
    + apply match_teamkill_seen_grows.
  - intros H. inversion H.
Qed.

Lemma run_nowrap_seen_grows st lines st' :
  run_nowrap st lines st' -> seen_tks st ⊆ seen_tks st'.
Proof.
  induction 1 as [st|st line r st' lines st'' Hp Hw _ IH]; [reflexivity|].
  etransitivity; [exact (parse_line_seen_grows line st r st' Hp Hw)|exact IH].
Qed.

Lemma match_damage_keeps line st :
  active_admin_cam_users (final_state (match_damage line st)) = active_admin_cam_users st /\
  admincam_log (final_state (match_damage line st)) = admincam_log st /\
  seen_tks (final_state (match_damage line st)) = seen_tks st.
Proof. rewrite match_damage_eq. destruct (search damage_rx line); simpl; auto. Qed.

Lemma after_wrap_keeps id st :
  active_admin_cam_users (after_wrap id st) = active_admin_cam_users st /\
  admincam_log (after_wrap id st) = admincam_log st.
Proof. unfold after_wrap. destruct (_ <? _)%Z; simpl; auto. Qed.

Lemma match_teamkill_keeps line st :
  active_admin_cam_users (final_state (match_teamkill line st)) = active_admin_cam_users st /\
  admincam_log (final_state (match_teamkill line st)) = admincam_log st /\
  recent_damages (final_state (match_teamkill line st)) = recent_damages st.
Proof.
  rewrite match_teamkill_eq. destruct (search teamkill_rx line) as [caps|]; [|simpl; auto].
  cbn zeta. pose proof (after_wrap_keeps (grp "log_id" caps) st) as [Ha Hl].
  pose proof (after_wrap_recent (grp "log_id" caps) st) as Hr.
  destruct (decide _); [simpl; auto|].
  destruct (find_damage _ _); [destruct (strptime _)|]; simpl; auto.
Qed.

Lemma last_change_snoc u log e :
  last_change u (log ++ [e])%list =
  if String.eqb (ae_user e) u then Some (ae_change e) else last_change u log.
Proof. unfold last_change. rewrite fold_left_app. reflexivity. Qed.

Lemma cam_inv_enter st u t :
  cam_inv st ->
  cam_inv (set_admincam_log
             (admincam_log st ++ [{| ae_time := t; ae_change := ENTER; ae_user := u |}])%list
             (set_active ({[u]} ∪ active_admin_cam_users st) st)).
Proof.
  intros I v. specialize (I v).
  cbn [active_admin_cam_users admincam_log set_admincam_log set_active].
  rewrite last_change_snoc. cbn [ae_user ae_change].
  destruct (String.eqb_spec u v) as [->|Hne].
  - split; [reflexivity|]. intros _. set_solver.
  - destruct I as [I1 I2]. split; intros H.
    + apply I1. set_solver.
    + apply I2 in H. set_solver.
Qed.

Lemma cam_inv_leave st u t :
  cam_inv st ->
  cam_inv (set_admincam_log
             (admincam_log st ++ [{| ae_time := t; ae_change := LEAVE; ae_user := u |}])%list
             (set_active (active_admin_cam_users st ∖ {[u]}) st)).
Proof.
  intros I v. specialize (I v).
  cbn [active_admin_cam_users admincam_log set_admincam_log set_active].
  rewrite last_change_snoc. cbn [ae_user ae_change].
  destruct (String.eqb_spec u v) as [->|Hne].
  - split; [set_solver|]. intros H. inversion H.
  - destruct I as [I1 I2]. split; intros H.
    + apply I1. set_solver.
    + apply I2 in H. set_solver.
Qed.

Lemma match_admincam_inv line st b st' :
  cam_inv st -> match_admincam line st = Ret b st' -> cam_inv st'.
Proof.
  intros I. rewrite match_admincam_eq.
  destruct (search possess_rx line) as [caps|].
  - rewrite log_admincam_eq. simpl.
    destruct (strptime _) as [t|]; [|intros H; inversion H].
    destruct (admincam_log_writable st); intros H; inversion H; subst.
    apply cam_inv_enter. exact I.
  - destruct (search unpossess_rx line) as [caps|]; [|intros H; inversion H; subst; exact I].
    destruct (decide _); [intros H; inversion H; subst; exact I|].
    rewrite log_admincam_eq. simpl.
    destruct (strptime _) as [t|]; [|intros H; inversion H].
    destruct (admincam_log_writable st); intros H; inversion H; subst.
    apply cam_inv_leave. exact I.
Qed.

Lemma cam_inv_proper st st' :
  active_admin_cam_users st' = active_admin_cam_users st ->
  admincam_log st' = admincam_log st -> cam_inv st -> cam_inv st'.
Proof. intros Ha Hl I u. rewrite Ha, Hl. apply I. Qed.

Lemma parse_line_inv line st r st' :
  cam_inv st -> parse_line line st = Ret r st' -> cam_inv st'.
Proof.
  intros I. rewrite parse_line_eq.
  destruct (match_admincam line st) as [b st1|e st1] eqn:Ea; [|intros H; inversion H].
  pose proof (match_admincam_inv line st b st1 I Ea) as I1.
  destruct b; [intros H; inversion H; subst; exact I1|].
  pose proof (match_damage_keeps line st1) as (Hda & Hdl & _).
  destruct (match_damage line st1) as [b2 st2|e st2] eqn:Ed; [|intros H; inversion H].
  simpl in Hda, Hdl.
  assert (I2 : cam_inv st2) by exact (cam_inv_proper st1 st2 Hda Hdl I1).
  destruct b2; [intros H; inversion H; subst; exact I2|].
  intros H. pose proof (match_teamkill_keeps line st2) as (Hta & Htl & _).
  rewrite H in Hta, Htl. simpl in Hta, Htl.
  exact (cam_inv_proper st2 st' Hta Htl I2).
Qed.

Lemma run_inv st lines st' : cam_inv st -> run st lines st' -> cam_inv st'.
Proof.
  intros I Hr. induction Hr as [st|st line r st1 lines st2 Hp _ IH]; [exact I|].
  apply IH. exact (parse_line_inv line st r st1 I Hp).
Qed.

Lemma log_admincam_raise caps change st e st' :
  log_admincam caps change st = Raise e st' -> st' = st.
Proof.
  rewrite log_admincam_eq. destruct (strptime _); [destruct (admincam_log_writable _)|];
    intros H; inversion H; reflexivity.
Qed.

Lemma int_zeros n b : int (Samples.zeros n ++ b) = int b.
Proof. induction n as [|n IH]; [reflexivity|]. exact IH. Qed.

Lemma zeros_app_neq n b : (0 < n)%nat -> (Samples.zeros n ++ b)%string <> b.
Proof.
  intros Hn E. apply (f_equal String.length) in E.
  assert (Hl : forall m, String.length (Samples.zeros m ++ b) = m + String.length b)
    by (induction m as [|m IH]; simpl; [reflexivity|rewrite IH; reflexivity]).
  rewrite Hl in E. lia.
Qed.

End Facts.

(* ------------------------------------------------------------------ *)
(** ** The claims *)

Module Claims.
Import Re Patterns Time TKMonitor Samples Facts.

(** C1 (corrected). A teamkill line whose log id string is not in
    [seen_tks] and equals the log id of a buffered damage is correlated
    with the oldest such damage ([find_damage]): when that damage's time
    parses, the result is a [TeamKill] with the parsed time and the
    damage's victim, killer and weapon groups, and the id is added to
    [seen_tks]; when it does not parse, [strptime]'s [ValueError]
    propagates and the id is not added. On the spec's example the record
    is (2024-01-01 00:00:00, V, K, AK47). *)
Theorem C1_teamkill_from_oldest_buffered_damage :
  result (tk_follow_lines [damage_line; teamkill_line "55"] (init true)) = Some [teamkill_V_K] /\
  forall st line caps dm,
    search teamkill_rx line = Some caps ->
    grp "log_id" caps ∉ seen_tks st ->
    find_damage (grp "log_id" caps) (recent_damages st) = Some dm ->
    match_teamkill line st =
    match strptime (dm_time dm) with
    | Some t =>
        Ret (Some (tk_of t dm))
          (set_seen_tks ({[grp "log_id" caps]} ∪ seen_tks (after_wrap (grp "log_id" caps) st))
             (after_wrap (grp "log_id" caps) st))
    | None => Raise ValueError (after_wrap (grp "log_id" caps) st)
    end.
Proof.
  split.
  - vm_compute. reflexivity.
  - intros st line caps dm Hs Hn Hf. rewrite (match_teamkill_hit line st caps dm Hs Hn Hf).
    destruct (strptime (dm_time dm)); reflexivity.
Qed.

Lemma C1_witness :
  match_teamkill (teamkill_line "55") (with_damages [damage_V_K]) =
  Ret (Some teamkill_V_K)
      (set_seen_tks ({["55"]} ∪ seen_tks (after_wrap "55" (with_damages [damage_V_K])))
         (after_wrap "55" (with_damages [damage_V_K]))).
Proof.
  apply (proj2 C1_teamkill_from_oldest_buffered_damage
           (with_damages [damage_V_K]) (teamkill_line "55") [("log_id", "55")] damage_V_K).
  - vm_compute. reflexivity.
  - decide_closed.
  - vm_compute. reflexivity.
Defined.

(** C1, counterexample: after the damage line with time [x] (log id 55)
    is buffered, the teamkill line with log id 55 returns no record: it
    raises. *)
Lemma C1_counterexample :
  let st := final_state (parse_line damage_line_bad_time (init true)) in
  find_damage "55" (recent_damages st) <> None /\
  ("55" ∉ seen_tks st) /\
  match_teamkill (teamkill_line "55") st = Raise ValueError (after_wrap "55" st).
Proof.
  cbv zeta. split; [|split].
  - vm_compute. discriminate.
  - decide_closed.
  - vm_compute. reflexivity.
Qed.

(** C2 (corrected). A teamkill line whose log id is not in [seen_tks] and
    matches a buffered damage: when that damage's time parses, it yields
    one [TeamKill] and puts the id in [seen_tks], and any later teamkill
    line with the same log id, after lines processed without a
    wrap-around clear and with no clear on that line itself, yields
    [None]; when the time does not parse, the first line raises
    [ValueError] and the id is not put in [seen_tks]. *)
Theorem C2_second_report_is_dropped :
  forall st line1 caps1 dm,
    search teamkill_rx line1 = Some caps1 ->
    grp "log_id" caps1 ∉ seen_tks st ->
    find_damage (grp "log_id" caps1) (recent_damages st) = Some dm ->
    (strptime (dm_time dm) = None ->
       match_teamkill line1 st = Raise ValueError (after_wrap (grp "log_id" caps1) st) /\
       grp "log_id" caps1 ∉ seen_tks (after_wrap (grp "log_id" caps1) st)) /\
    (forall t, strptime (dm_time dm) = Some t ->
     exists st1,
       match_teamkill line1 st = Ret (Some (tk_of t dm)) st1 /\
       grp "log_id" caps1 ∈ seen_tks st1 /\
       forall lines st2 line2 caps2,
         run_nowrap st1 lines st2 ->
         search teamkill_rx line2 = Some caps2 ->
         grp "log_id" caps2 = grp "log_id" caps1 ->
         ~ (int (grp "log_id" caps1) + 500 < last_log_id st2)%Z ->
         match_teamkill line2 st2 = Ret None (after_wrap (grp "log_id" caps1) st2)).
Proof.
  intros st line1 caps1 dm Hs Hn Hf.
  rewrite (match_teamkill_hit line1 st caps1 dm Hs Hn Hf). split.
  - intros Ht. rewrite Ht. split; [reflexivity|].
    intros Hin. apply Hn. apply (after_wrap_seen_sub (grp "log_id" caps1) st). exact Hin.
  - intros t Ht. rewrite Ht.
    eexists. split; [reflexivity|]. split; [simpl; set_solver|].
    intros lines st2 line2 caps2 Hrun Hs2 Hid Hnw.
    apply run_nowrap_seen_grows in Hrun. simpl in Hrun.
    rewrite match_teamkill_eq, Hs2. cbn zeta. rewrite Hid.
    assert (Hin : grp "log_id" caps1 ∈ seen_tks (after_wrap (grp "log_id" caps1) st2)).
    { unfold after_wrap. destruct (Z.ltb_spec (int (grp "log_id" caps1) + 500) (last_log_id st2));
        [lia|]. simpl. set_solver. }
    destruct (decide _) as [_|Hnot]; [reflexivity|contradiction].
Qed.

Lemma C2_witness :
  (exists st1,
     match_teamkill (teamkill_line "55") (with_damages [damage_V_K]) =
       Ret (Some (tk_of (mkDatetime 2024 1 1 0 0 0 0) damage_V_K)) st1 /\
     "55" ∈ seen_tks st1 /\
     match_teamkill (teamkill_line "55") st1 = Ret None (after_wrap "55" st1)) /\
  match_teamkill (teamkill_line "55") (with_damages [damage_with_time "x"]) =
    Raise ValueError (after_wrap "55" (with_damages [damage_with_time "x"])) /\
  ("55" ∉ seen_tks (after_wrap "55" (with_damages [damage_with_time "x"]))).
Proof.
  split.
  - destruct (C2_second_report_is_dropped (with_damages [damage_V_K]) (teamkill_line "55")
                [("log_id", "55")] damage_V_K) as [_ Hok].
    + vm_compute. reflexivity.
    + decide_closed.
    + vm_compute. reflexivity.
    + destruct (Hok (mkDatetime 2024 1 1 0 0 0 0)) as (st1 & H1 & H2 & H3);
        [vm_compute; reflexivity|].
      exists st1. split; [exact H1|split; [exact H2|]].
      apply (H3 [] st1 (teamkill_line "55") [("log_id", "55")]).
      * constructor.
      * vm_compute. reflexivity.
      * reflexivity.
      * assert (Hl : last_log_id (final_state (match_teamkill (teamkill_line "55")
                                                 (with_damages [damage_V_K]))) = 55%Z)
          by (vm_compute; reflexivity).
        rewrite H1 in Hl. simpl in Hl. rewrite Hl. vm_compute. discriminate.
  - apply (proj1 (C2_second_report_is_dropped (with_damages [damage_with_time "x"])
                    (teamkill_line "55") [("log_id", "55")] (damage_with_time "x")
                    ltac:(vm_compute; reflexivity) ltac:(decide_closed)
                    ltac:(vm_compute; reflexivity))).
    vm_compute. reflexivity.
Defined.

(** C2, counterexample: a matching buffered damage whose time does not
    parse gives no record for the first report: the call raises. *)
Lemma C2_counterexample :
  let dm := {| dm_time := "x"; dm_log_id := "55"; dm_victim := "V";
               dm_killer := "K"; dm_weapon := "AK47" |} in
  find_damage "55" (recent_damages (with_damages [dm])) = Some dm /\
  match_teamkill (teamkill_line "55") (with_damages [dm]) =
    Raise ValueError (after_wrap "55" (with_damages [dm])).
Proof. cbv zeta. split; vm_compute; reflexivity. Qed.

(** C3 (confirmed). On a teamkill line, [last_log_id] ends as the line's
    log id whatever the outcome (duplicate, uncorrelated, record or
    exception); and when [int(log_id) + 500 < last_log_id], the outcome is
    that of the same call on a monitor whose [seen_tks] is empty (the set
    is cleared before the duplicate check) and [seen_tks] ends holding at
    most this id. *)
Theorem C3_wraparound_clear_and_last_id :
  forall st line caps,
    search teamkill_rx line = Some caps ->
    last_log_id (final_state (match_teamkill line st)) = int (grp "log_id" caps) /\
    ((int (grp "log_id" caps) + 500 < last_log_id st)%Z ->
       match_teamkill line st = match_teamkill line (set_seen_tks ∅ st) /\
       seen_tks (final_state (match_teamkill line st)) ⊆ {[grp "log_id" caps]}).
Proof.
  intros st line caps Hs. split.
  - rewrite match_teamkill_eq, Hs. cbn zeta.
    destruct (decide _); [reflexivity|].
    destruct (find_damage _ _); [destruct (strptime _)|]; reflexivity.
  - intros Hw.
    assert (Haw : after_wrap (grp "log_id" caps) st =
                  after_wrap (grp "log_id" caps) (set_seen_tks ∅ st)).
    { unfold after_wrap. simpl.
      destruct (Z.ltb_spec (int (grp "log_id" caps) + 500) (last_log_id st)); [|lia].
      reflexivity. }
    assert (Hempty : seen_tks (after_wrap (grp "log_id" caps) st) = ∅).
    { unfold after_wrap.
      destruct (Z.ltb_spec (int (grp "log_id" caps) + 500) (last_log_id st)); [|lia].
      reflexivity. }
    split.
    + rewrite !match_teamkill_eq, Hs. cbn zeta. rewrite <- Haw. reflexivity.
    + rewrite match_teamkill_eq, Hs. cbn zeta.
      destruct (decide _); [cbn [final_state]; rewrite Hempty; set_solver|].
      destruct (find_damage _ _); [destruct (strptime _)|]; cbn [final_state];
        try (unfold set_seen_tks; cbn [seen_tks]); rewrite Hempty; set_solver.
Qed.

(** The spec's instance: last id 1000, a teamkill line with log id 400
    already in [seen_tks]. *)
Lemma C3_witness :
  last_log_id (final_state (match_teamkill (teamkill_line "400") (monitor_at_1000 {["400"]} []))) =
    int "400" /\
  match_teamkill (teamkill_line "400") (monitor_at_1000 {["400"]} []) =
    match_teamkill (teamkill_line "400") (set_seen_tks ∅ (monitor_at_1000 {["400"]} [])) /\
  seen_tks (final_state (match_teamkill (teamkill_line "400") (monitor_at_1000 {["400"]} [])))
    ⊆ {["400"]}.
Proof.
  destruct (C3_wraparound_clear_and_last_id (monitor_at_1000 {["400"]} []) (teamkill_line "400")
              [("log_id", "400")]) as [H1 H2].
  - vm_compute. reflexivity.
  - split; [exact H1|]. apply H2. vm_compute. reflexivity.
Defined.

(** C4 (corrected). A teamkill line whose log id is not in [seen_tks] and
    matches no buffered damage returns [None] and does not add the id to
    [seen_tks], which keeps its contents unless the wrap-around test
    empties it; a damage with that log id buffered afterwards (and whose
    time parses) lets the same teamkill line correlate. *)
Theorem C4_uncorrelated_not_marked :
  forall st line caps,
    search teamkill_rx line = Some caps ->
    grp "log_id" caps ∉ seen_tks st ->
    find_damage (grp "log_id" caps) (recent_damages st) = None ->
    match_teamkill line st = Ret None (after_wrap (grp "log_id" caps) st) /\
    (grp "log_id" caps ∉ seen_tks (after_wrap (grp "log_id" caps) st)) /\
    seen_tks (after_wrap (grp "log_id" caps) st) =
      (if (int (grp "log_id" caps) + 500 <? last_log_id st)%Z then ∅ else seen_tks st) /\
    forall dm t,
      dm_log_id dm = grp "log_id" caps ->
      strptime (dm_time dm) = Some t ->
      exists st',
        match_teamkill line
          (set_recent_damages (push_damage dm (recent_damages st))
             (after_wrap (grp "log_id" caps) st)) = Ret (Some (tk_of t dm)) st'.
Proof.
  intros st line caps Hs Hn Hf.
  assert (Hn' : grp "log_id" caps ∉ seen_tks (after_wrap (grp "log_id" caps) st)).
  { intros Hin. apply Hn. apply (after_wrap_seen_sub (grp "log_id" caps) st). exact Hin. }
  split; [|split; [exact Hn'|split]].
  - rewrite match_teamkill_eq, Hs. cbn zeta.
    destruct (decide _); [contradiction|]. rewrite after_wrap_recent, Hf. reflexivity.
  - unfold after_wrap. destruct (_ <? _)%Z; reflexivity.
  - intros dm t Hd Ht.
    set (st1 := set_recent_damages (push_damage dm (recent_damages st))
                  (after_wrap (grp "log_id" caps) st)).
    assert (Hn1 : grp "log_id" caps ∉ seen_tks st1) by exact Hn'.
    assert (Hf1 : find_damage (grp "log_id" caps) (recent_damages st1) = Some dm)
      by (apply find_damage_push; assumption).
    rewrite (match_teamkill_hit line st1 caps dm Hs Hn1 Hf1), Ht.
    eexists. reflexivity.
Qed.

Lemma C4_witness :
  match_teamkill (teamkill_line "55") (with_damages []) =
    Ret None (after_wrap "55" (with_damages [])) /\
  ("55" ∉ seen_tks (after_wrap "55" (with_damages []))) /\
  seen_tks (after_wrap "55" (with_damages [])) =
    (if (int "55" + 500 <? last_log_id (with_damages []))%Z then ∅
     else seen_tks (with_damages [])) /\
  exists st',
    match_teamkill (teamkill_line "55")
      (set_recent_damages (push_damage damage_V_K (recent_damages (with_damages [])))
         (after_wrap "55" (with_damages []))) =
    Ret (Some (tk_of (mkDatetime 2024 1 1 0 0 0 0) damage_V_K)) st'.
Proof.
  destruct (C4_uncorrelated_not_marked (with_damages []) (teamkill_line "55") [("log_id", "55")])
    as (H1 & H2 & H3 & H4).
  - vm_compute. reflexivity.
  - decide_closed.
  - vm_compute. reflexivity.
  - split; [exact H1|split; [exact H2|split; [exact H3|]]].
    apply H4; vm_compute; reflexivity.
Defined.

(** C4, counterexample: last id 1000, [seen_tks = {"5"}], no damage
    buffered; the teamkill line with log id 400 returns [None] but
    [seen_tks] changes: the wrap-around test empties it. *)
Lemma C4_counterexample :
  ("400" ∉ seen_tks (monitor_at_1000 {["5"]} [])) /\
  find_damage "400" (recent_damages (monitor_at_1000 {["5"]} [])) = None /\
  result (match_teamkill (teamkill_line "400") (monitor_at_1000 {["5"]} [])) = Some None /\
  ("5" ∈ seen_tks (monitor_at_1000 {["5"]} [])) /\
  ("5" ∉ seen_tks (final_state (match_teamkill (teamkill_line "400") (monitor_at_1000 {["5"]} [])))).
Proof.
  split; [decide_closed|split; [reflexivity|split; [vm_compute; reflexivity|split; decide_closed]]].
Qed.

(** C5 (confirmed). Inserting damages one by one into the initially empty
    window leaves exactly the last 20 inserted, oldest first (so at most
    20); at 20 entries an insertion drops the oldest; [_match_damage]
    inserts the matched damage this way. *)
Theorem C5_damage_window_fifo :
  (forall ds : list damage,
     fold_left (fun w d => push_damage d w) ds [] = lastn 20 ds /\
     (length (fold_left (fun w d => push_damage d w) ds []) <= 20)%nat) /\
  (forall (w : list damage) d,
     length w = 20%nat -> push_damage d w = (tail w ++ [d])%list) /\
  (forall line st caps,
     search damage_rx line = Some caps ->
     match_damage line st =
       Ret true (set_recent_damages (push_damage (damage_of caps) (recent_damages st)) st)).
Proof.
  split; [|split].
  - intros ds.
    assert (H : fold_left (fun w d => push_damage d w) ds [] = lastn 20 ds)
      by exact (fold_push_lastn ds []).
    rewrite H. split; [reflexivity|]. unfold lastn. rewrite length_skipn. lia.
  - intros w d Hl. unfold push_damage. cbn zeta. rewrite length_app, Hl. simpl.
    destruct w as [|x w']; [discriminate Hl|]. reflexivity.
  - intros line st caps Hs. rewrite match_damage_eq, Hs. reflexivity.
Qed.

Lemma C5_witness :
  fold_left (fun w d => push_damage d w) [damage_V_K] [] = lastn 20 [damage_V_K] /\
  (length (fold_left (fun w d => push_damage d w) [damage_V_K] []) <= 20)%nat /\
  push_damage damage_V_K (repeat damage_V_K 20) = (tail (repeat damage_V_K 20) ++ [damage_V_K])%list /\
  match_damage damage_line (init true) =
    Ret true (set_recent_damages (push_damage damage_V_K []) (init true)).
Proof.
  destruct C5_damage_window_fifo as (H1 & H2 & H3).
  split; [exact (proj1 (H1 [damage_V_K]))|].
  split; [exact (proj2 (H1 [damage_V_K]))|].
  split; [apply H2; reflexivity|].
  apply (H3 damage_line (init true)
           [("weapon", "AK47"); ("killer", "K"); ("victim", "V"); ("log_id", "55");
            ("time", "2024.01.01-00.00.00:000")]).
  vm_compute. reflexivity.
Defined.

(** C6 (corrected). [parse_line] runs the admin-cam method first, then the
    damage pattern, then the teamkill pattern, stopping at the first method
    that reports a match: a possess line, or an unpossess line for an
    active user, goes no further than [_match_admincam]; an unpossess line
    for a user not in [active_admin_cam_users] counts as unmatched there
    and goes on to the damage and teamkill patterns; a damage line is only
    buffered; a line that reaches neither an admin-cam transition nor the
    damage pattern is handled by [_match_teamkill] alone; a line no
    pattern matches returns [None] with the monitor unchanged and no
    exception. *)
Theorem C6_classification_order :
  forall line st,
    (forall caps, search possess_rx line = Some caps ->
       parse_line line st =
       match match_admincam line st with
       | Ret _ st1 => Ret None st1
       | Raise e st1 => Raise e st1
       end) /\
    (forall caps, search possess_rx line = None -> search unpossess_rx line = Some caps ->
       grp "user" caps ∈ active_admin_cam_users st ->
       parse_line line st =
       match match_admincam line st with
       | Ret _ st1 => Ret None st1
       | Raise e st1 => Raise e st1
       end) /\
    (forall caps, search possess_rx line = None -> search unpossess_rx line = Some caps ->
       grp "user" caps ∉ active_admin_cam_users st ->
       parse_line line st =
       match search damage_rx line with
       | Some dcaps =>
           Ret None (set_recent_damages (push_damage (damage_of dcaps) (recent_damages st)) st)
       | None => match_teamkill line st
       end) /\
    (forall dcaps, search possess_rx line = None -> search unpossess_rx line = None ->
       search damage_rx line = Some dcaps ->
       parse_line line st =
       Ret None (set_recent_damages (push_damage (damage_of dcaps) (recent_damages st)) st)) /\
    (search possess_rx line = None -> search unpossess_rx line = None ->
     search damage_rx line = None ->
     parse_line line st = match_teamkill line st) /\
    (search possess_rx line = None -> search unpossess_rx line = None ->
     search damage_rx line = None -> search teamkill_rx line = None ->
     parse_line line st = Ret None st).
Proof.
  intros line st. split; [|split; [|split; [|split; [|split]]]].
  - intros caps Hp. rewrite parse_line_eq, match_admincam_eq, Hp, log_admincam_eq.
    destruct (strptime _); [destruct (admincam_log_writable _)|]; reflexivity.
  - intros caps Hp Hu Hin. rewrite parse_line_eq, match_admincam_eq, Hp, Hu.
    destruct (decide _) as [Hn|_]; [contradiction|].
    rewrite log_admincam_eq.
    destruct (strptime _); [destruct (admincam_log_writable _)|]; reflexivity.
  - intros caps Hp Hu Hn. rewrite parse_line_eq, match_admincam_eq, Hp, Hu.
    destruct (decide _) as [_|Hin]; [|contradiction].
    rewrite match_damage_eq. destruct (search damage_rx line); reflexivity.
  - intros dcaps Hp Hu Hd. rewrite parse_line_eq, match_admincam_eq, Hp, Hu, match_damage_eq, Hd.
    reflexivity.
  - intros Hp Hu Hd. rewrite parse_line_eq, match_admincam_eq, Hp, Hu, match_damage_eq, Hd.
    reflexivity.
  - intros Hp Hu Hd Ht. rewrite parse_line_eq, match_admincam_eq, Hp, Hu, match_damage_eq, Hd,
      match_teamkill_eq, Ht. reflexivity.
Qed.

Lemma C6_witness :
  parse_line (possess_line "Alice") (init true) =
    match match_admincam (possess_line "Alice") (init true) with
    | Ret _ st1 => Ret None st1
    | Raise e st1 => Raise e st1
    end /\
  parse_line (unpossess_line "Alice") (with_active "Alice" true) =
    match match_admincam (unpossess_line "Alice") (with_active "Alice" true) with
    | Ret _ st1 => Ret None st1
    | Raise e st1 => Raise e st1
    end /\
  parse_line unpossess_teamkill_line (init true) =
    match search damage_rx unpossess_teamkill_line with
    | Some dcaps =>
        Ret None (set_recent_damages (push_damage (damage_of dcaps) []) (init true))
    | None => match_teamkill unpossess_teamkill_line (init true)
    end /\
  parse_line damage_line (init true) =
    Ret None (set_recent_damages (push_damage (damage_of damage_caps) []) (init true)) /\
  parse_line (teamkill_line "55") (with_damages [damage_V_K]) =
    match_teamkill (teamkill_line "55") (with_damages [damage_V_K]) /\
  parse_line "hello" (init true) = Ret None (init true).
Proof.
  split; [|split; [|split; [|split; [|split]]]].
  - apply (proj1 (C6_classification_order (possess_line "Alice") (init true))
             (cam_caps "Alice" "5")).
    vm_compute. reflexivity.
  - apply (proj1 (proj2 (C6_classification_order (unpossess_line "Alice") (with_active "Alice" true)))
             (cam_caps "Alice" "6")).
    + vm_compute. reflexivity.
    + vm_compute. reflexivity.
    + decide_closed.
  - apply (proj1 (proj2 (proj2 (C6_classification_order unpossess_teamkill_line (init true))))
             (cam_caps "Bob LogSquadScorePoints: TeamKilled" "7")).
    + vm_compute. reflexivity.
    + vm_compute. reflexivity.
    + decide_closed.
  - apply (proj1 (proj2 (proj2 (proj2 (C6_classification_order damage_line (init true)))))
             damage_caps).
    + vm_compute. reflexivity.
    + vm_compute. reflexivity.
    + vm_compute. reflexivity.
  - apply (proj1 (proj2 (proj2 (proj2 (proj2 (C6_classification_order (teamkill_line "55")
                                                   (with_damages [damage_V_K]))))))).
    + vm_compute. reflexivity.
    + vm_compute. reflexivity.
    + vm_compute. reflexivity.
  - apply (proj2 (proj2 (proj2 (proj2 (proj2 (C6_classification_order "hello" (init true))))))).
    + vm_compute. reflexivity.
    + vm_compute. reflexivity.
    + vm_compute. reflexivity.
    + vm_compute. reflexivity.
Defined.

(** C6, counterexample: the admin-cam unpossess pattern matches this line
    (user Bob, not in admin cam), yet the line also reaches the teamkill
    pattern, which sets [last_log_id] to 7. *)
Lemma C6_counterexample :
  search unpossess_rx unpossess_teamkill_line <> None /\
  search teamkill_rx unpossess_teamkill_line <> None /\
  last_log_id (init true) = 0%Z /\
  last_log_id (final_state (parse_line unpossess_teamkill_line (init true))) = 7%Z.
Proof. split; [|split; [|split]]; vm_compute; [discriminate|discriminate|reflexivity|reflexivity]. Qed.

(** C7 (corrected). Enter (possess line with [Pawn=CameraMan_C_]): the user
    is added to [active_admin_cam_users] whatever the prior state; an ENTER
    line is appended to admincam.log when the time parses and the log can
    be opened; otherwise [ValueError] (time) or [OSError] (log) propagates
    with the user already added and nothing appended. Candidate leave (unpossess line): for a user not active, the
    call returns [False] with the monitor unchanged; for an active user,
    the user is removed and a LEAVE line appended under the same condition,
    the same exceptions propagating otherwise with the user already removed.
    Over any run of lines from [__init__], a user is active iff the last
    admincam.log line for that user is an ENTER. *)
Theorem C7_admin_cam_state_machine :
  (forall line st caps,
     search possess_rx line = Some caps ->
     active_admin_cam_users (final_state (match_admincam line st)) =
       {[grp "user" caps]} ∪ active_admin_cam_users st /\
     (forall t, strptime (grp "time" caps) = Some t -> admincam_log_writable st = true ->
        match_admincam line st =
        Ret true (set_admincam_log
                    (admincam_log st ++ [{| ae_time := t; ae_change := ENTER;
                                            ae_user := grp "user" caps |}])%list
                    (set_active ({[grp "user" caps]} ∪ active_admin_cam_users st) st))) /\
     (strptime (grp "time" caps) = None ->
        match_admincam line st =
        Raise ValueError (set_active ({[grp "user" caps]} ∪ active_admin_cam_users st) st)) /\
     (forall t, strptime (grp "time" caps) = Some t -> admincam_log_writable st = false ->
        match_admincam line st =
        Raise OSError (set_active ({[grp "user" caps]} ∪ active_admin_cam_users st) st))) /\
  (forall line st caps,
     search possess_rx line = None -> search unpossess_rx line = Some caps ->
     grp "user" caps ∉ active_admin_cam_users st ->
     match_admincam line st = Ret false st) /\
  (forall line st caps,
     search possess_rx line = None -> search unpossess_rx line = Some caps ->
     grp "user" caps ∈ active_admin_cam_users st ->
     active_admin_cam_users (final_state (match_admincam line st)) =
       active_admin_cam_users st ∖ {[grp "user" caps]} /\
     (forall t, strptime (grp "time" caps) = Some t -> admincam_log_writable st = true ->
        match_admincam line st =
        Ret true (set_admincam_log
                    (admincam_log st ++ [{| ae_time := t; ae_change := LEAVE;
                                            ae_user := grp "user" caps |}])%list
                    (set_active (active_admin_cam_users st ∖ {[grp "user" caps]}) st))) /\
     (strptime (grp "time" caps) = None ->
        match_admincam line st =
        Raise ValueError (set_active (active_admin_cam_users st ∖ {[grp "user" caps]}) st)) /\
     (forall t, strptime (grp "time" caps) = Some t -> admincam_log_writable st = false ->
        match_admincam line st =
        Raise OSError (set_active (active_admin_cam_users st ∖ {[grp "user" caps]}) st))) /\
  (forall writable lines st,
     run (init writable) lines st ->
     forall u, u ∈ active_admin_cam_users st <-> last_change u (admincam_log st) = Some ENTER).
Proof.
  split; [|split; [|split]].
  - intros line st caps Hp. rewrite match_admincam_eq, Hp, log_admincam_eq.
    split; [|split; [|split]].
    + destruct (strptime _); [destruct (admincam_log_writable _)|]; reflexivity.
    + intros t Ht Hw. rewrite Ht. simpl. rewrite Hw. reflexivity.
    + intros Ht. rewrite Ht. reflexivity.
    + intros t Ht Hw. rewrite Ht. simpl. rewrite Hw. reflexivity.
  - intros line st caps Hp Hu Hn. rewrite match_admincam_eq, Hp, Hu.
    destruct (decide _); [reflexivity|contradiction].
  - intros line st caps Hp Hu Hin. rewrite match_admincam_eq, Hp, Hu.
    destruct (decide _) as [Hn|_]; [contradiction|].
    rewrite log_admincam_eq. split; [|split; [|split]].
    + destruct (strptime _); [destruct (admincam_log_writable _)|]; reflexivity.
    + intros t Ht Hw. rewrite Ht. simpl. rewrite Hw. reflexivity.
    + intros Ht. rewrite Ht. reflexivity.
    + intros t Ht Hw. rewrite Ht. simpl. rewrite Hw. reflexivity.
  - intros writable lines st Hr. apply (run_inv (init writable) lines st); [|exact Hr].
    intros u. simpl. split; [set_solver|]. intros H. inversion H.
Qed.

Lemma C7_witness :
  active_admin_cam_users (final_state (match_admincam (possess_line "Alice") (init true))) =
    {[grp "user" (cam_caps "Alice" "5")]} ∪ active_admin_cam_users (init true) /\
  match_admincam (unpossess_line "Bob") (init true) = Ret false (init true) /\
  active_admin_cam_users (final_state (match_admincam (unpossess_line "Alice") (with_active "Alice" true))) =
    active_admin_cam_users (with_active "Alice" true) ∖ {[grp "user" (cam_caps "Alice" "6")]} /\
  (forall u, u ∈ active_admin_cam_users (init true) <->
             last_change u (admincam_log (init true)) = Some ENTER) /\
  match_admincam (possess_line "Alice") (init false) =
    Raise OSError (set_active ({[grp "user" (cam_caps "Alice" "5")]} ∪ active_admin_cam_users (init false))
                     (init false)).
Proof.
  destruct C7_admin_cam_state_machine as (He & Hl & Hl' & Hinv).
  split; [|split; [|split; [|split]]].
  - apply (He (possess_line "Alice") (init true) (cam_caps "Alice" "5")). vm_compute. reflexivity.
  - apply (Hl (unpossess_line "Bob") (init true) (cam_caps "Bob" "6")).
    + vm_compute. reflexivity.
    + vm_compute. reflexivity.
    + decide_closed.
  - apply (Hl' (unpossess_line "Alice") (with_active "Alice" true) (cam_caps "Alice" "6")).
    + vm_compute. reflexivity.
    + vm_compute. reflexivity.
    + decide_closed.
  - apply (Hinv true []). constructor.
  - destruct (He (possess_line "Alice") (init false) (cam_caps "Alice" "5")) as (_ & _ & _ & Ho);
      [vm_compute; reflexivity|].
    apply (Ho (mkDatetime 2024 1 1 0 0 0 0)); vm_compute; reflexivity.
Defined.

(** C7, counterexample: admincam.log cannot be opened; the Enter line for
    Alice raises [OSError] after Alice was added, and no ENTER line is
    written. *)
Lemma C7_counterexample :
  match match_admincam (possess_line "Alice") (init false) with
  | Raise OSError _ => True
  | _ => False
  end /\
  ("Alice" ∈ active_admin_cam_users (final_state (match_admincam (possess_line "Alice") (init false)))) /\
  admincam_log (final_state (match_admincam (possess_line "Alice") (init false))) = [].
Proof. split; [vm_compute; exact I|split; [decide_closed|vm_compute; reflexivity]]. Qed.

(** C8 (corrected). Line processing is not transactional: an exception
    ([ValueError] from [strptime], [OSError] opening admincam.log) leaves
    the monitor with the mutations made before it. The damage window and
    admincam.log are never changed by a line that raises; [seen_tks] is
    either unchanged or emptied by the wrap-around test. The raise comes
    from one of three places: a possess line, with the line's user already
    added to the active users; an unpossess line of an active user, with
    that user already removed; or a teamkill line ([ValueError]), after
    the wrap-around test and the update of [last_log_id] to the line's log
    id, the id not being added to [seen_tks]. *)
Theorem C8_raise_keeps_earlier_mutations :
  forall line st e st',
    parse_line line st = Raise e st' ->
    recent_damages st' = recent_damages st /\
    admincam_log st' = admincam_log st /\
    (seen_tks st' = seen_tks st \/ seen_tks st' = ∅) /\
    (active_admin_cam_users st' = active_admin_cam_users st \/
     exists u, active_admin_cam_users st' = {[u]} ∪ active_admin_cam_users st \/
               active_admin_cam_users st' = active_admin_cam_users st ∖ {[u]}) /\
    ((exists caps, search possess_rx line = Some caps /\
        st' = set_active ({[grp "user" caps]} ∪ active_admin_cam_users st) st) \/
     (exists caps, search possess_rx line = None /\ search unpossess_rx line = Some caps /\
        grp "user" caps ∈ active_admin_cam_users st /\
        st' = set_active (active_admin_cam_users st ∖ {[grp "user" caps]}) st) \/
     (exists caps, e = ValueError /\ search teamkill_rx line = Some caps /\
        st' = after_wrap (grp "log_id" caps) st /\
        last_log_id st' = int (grp "log_id" caps) /\
        grp "log_id" caps ∉ seen_tks st')).
Proof.
  intros line st e st'. rewrite parse_line_eq.
  destruct (match_admincam line st) as [b st1|e1 st1] eqn:Ea.
  - destruct b; [intros H; inversion H|].
    apply match_admincam_false in Ea. subst st1.
    rewrite match_damage_eq. destruct (search damage_rx line); [intros H; inversion H|].
    rewrite match_teamkill_eq. destruct (search teamkill_rx line) as [caps|] eqn:Et;
      [|intros H; inversion H].
    cbn zeta. destruct (decide _) as [|Hn]; [intros H; inversion H|].
    destruct (find_damage _ _); [|intros H; inversion H].
    destruct (strptime _); intros H; inversion H; subst.
    pose proof (after_wrap_keeps (grp "log_id" caps) st) as [Ha Hl].
    split; [apply after_wrap_recent|split; [exact Hl|split; [|split; [left; exact Ha|]]]].
    + unfold after_wrap. destruct (_ <? _)%Z; [right|left]; reflexivity.
    + right. right. exists caps. split; [reflexivity|split; [reflexivity|]].
      split; [reflexivity|split; [reflexivity|exact Hn]].
  - intros H. inversion H; subst. clear H.
    revert Ea. rewrite match_admincam_eq.
    destruct (search possess_rx line) as [caps|] eqn:Ep.
    + intros Ea. apply log_admincam_raise in Ea. subst st'. simpl.
      split; [reflexivity|split; [reflexivity|split; [left; reflexivity|split]]].
      * right. exists (grp "user" caps). left. reflexivity.
      * left. exists caps. split; reflexivity.
    + destruct (search unpossess_rx line) as [caps|] eqn:Eu; [|intros Ea; inversion Ea].
      destruct (decide _) as [|Hnin]; [intros Ea; inversion Ea|].
      assert (Hin : grp "user" caps ∈ active_admin_cam_users st)
        by (destruct (decide (grp "user" caps ∈ active_admin_cam_users st)); [assumption|contradiction]).
      intros Ea. apply log_admincam_raise in Ea. subst st'. simpl.
      split; [reflexivity|split; [reflexivity|split; [left; reflexivity|split]]].
      * right. exists (grp "user" caps). right. reflexivity.
      * right. left. exists caps. split; [reflexivity|split; [reflexivity|split; [exact Hin|reflexivity]]].
Qed.

Lemma C8_witness :
  let st' := final_state (parse_line (possess_line "Alice") (init false)) in
  (recent_damages st' = recent_damages (init false) /\
   admincam_log st' = admincam_log (init false) /\
   (seen_tks st' = seen_tks (init false) \/ seen_tks st' = ∅) /\
   (active_admin_cam_users st' = active_admin_cam_users (init false) \/
    exists u, active_admin_cam_users st' = {[u]} ∪ active_admin_cam_users (init false) \/
              active_admin_cam_users st' = active_admin_cam_users (init false) ∖ {[u]}) /\
   ((exists caps, search possess_rx (possess_line "Alice") = Some caps /\
       st' = set_active ({[grp "user" caps]} ∪ active_admin_cam_users (init false)) (init false)) \/
    (exists caps, search possess_rx (possess_line "Alice") = None /\
       search unpossess_rx (possess_line "Alice") = Some caps /\
       grp "user" caps ∈ active_admin_cam_users (init false) /\
       st' = set_active (active_admin_cam_users (init false) ∖ {[grp "user" caps]}) (init false)) \/
    (exists caps, OSError = ValueError /\ search teamkill_rx (possess_line "Alice") = Some caps /\
       st' = after_wrap (grp "log_id" caps) (init false) /\
       last_log_id st' = int (grp "log_id" caps) /\
       grp "log_id" caps ∉ seen_tks st'))) /\
  (* a teamkill line correlated with a damage whose time does not parse *)
  exists caps,
    ValueError = ValueError /\ search teamkill_rx (teamkill_line "55") = Some caps /\
    final_state (parse_line (teamkill_line "55") (with_damages [damage_with_time "x"])) =
      after_wrap (grp "log_id" caps) (with_damages [damage_with_time "x"]) /\
    last_log_id (final_state (parse_line (teamkill_line "55") (with_damages [damage_with_time "x"]))) =
      int (grp "log_id" caps) /\
    grp "log_id" caps ∉
      seen_tks (final_state (parse_line (teamkill_line "55") (with_damages [damage_with_time "x"]))).
Proof.
  split.
  - apply (C8_raise_keeps_earlier_mutations (possess_line "Alice") (init false) OSError).
    vm_compute. reflexivity.
  - destruct (C8_raise_keeps_earlier_mutations (teamkill_line "55") (with_damages [damage_with_time "x"])
                ValueError (final_state (parse_line (teamkill_line "55")
                                          (with_damages [damage_with_time "x"]))))
      as (_ & _ & _ & _ & [(caps & Hp & _)|[(caps & _ & Hp & _)|Ht]]).
    + vm_compute. reflexivity.
    + vm_compute in Hp. discriminate Hp.
    + vm_compute in Hp. discriminate Hp.
    + exact Ht.
Defined.

(** C8, counterexample: admincam.log cannot be opened; the possess line
    for Alice raises with Alice added to the active users but no ENTER
    line logged, so the admin-cam invariant, which holds initially, no
    longer holds. *)
Lemma C8_counterexample :
  cam_inv (init false) /\
  match parse_line (possess_line "Alice") (init false) with
  | Raise OSError _ => True
  | _ => False
  end /\
  ~ cam_inv (final_state (parse_line (possess_line "Alice") (init false))).
Proof.
  split; [|split].
  - intros u. simpl. split; [set_solver|]. intros H. inversion H.
  - vm_compute. exact I.
  - intros I. destruct (I "Alice") as [H1 _].
    assert (Hin : "Alice" ∈ active_admin_cam_users
                    (final_state (parse_line (possess_line "Alice") (init false))))
      by decide_closed.
    specialize (H1 Hin). vm_compute in H1. discriminate H1.
Qed.

(** C9 (corrected). When the follower finds the file shrunk and re-opens
    it, only the read position and the recorded size change (to the new
    end of file); the whole monitor state ([recent_damages], [seen_tks],
    [last_log_id], [active_admin_cam_users]) is kept unchanged. *)
Theorem C9_reopen_keeps_monitor_state :
  forall content st fs m',
    Follow.read_step content fs = None ->
    (String.length content < Follow.file_size fs)%nat ->
    Follow.step content (st, fs) m' ->
    m' = (st, {| Follow.f_pos := String.length content;
                 Follow.file_size := String.length content;
                 Follow.line_counter := Follow.line_counter fs |}).
Proof.
  intros content st fs m' Hr Hlt Hs. inversion Hs as [? ? line fs' r st' Hr' _|]; subst.
  - rewrite Hr in Hr'. discriminate.
  - unfold Follow.check_truncation. apply Nat.ltb_lt in Hlt. rewrite Hlt. reflexivity.
Qed.

Lemma C9_witness :
  (with_damages [damage_V_K],
   Follow.check_truncation (file_of_size 120)
     {| Follow.f_pos := 500; Follow.file_size := 500; Follow.line_counter := 0 |}) =
  (with_damages [damage_V_K],
   {| Follow.f_pos := String.length (file_of_size 120);
      Follow.file_size := String.length (file_of_size 120);
      Follow.line_counter := Follow.line_counter
        {| Follow.f_pos := 500; Follow.file_size := 500; Follow.line_counter := 0 |} |}).
Proof.
  apply (C9_reopen_keeps_monitor_state (file_of_size 120) (with_damages [damage_V_K])
           {| Follow.f_pos := 500; Follow.file_size := 500; Follow.line_counter := 0 |}).
  - vm_compute. reflexivity.
  - vm_compute. apply Nat.ltb_lt. reflexivity.
  - apply Follow.step_poll. vm_compute. reflexivity.
Defined.

(** C9, counterexample: the file shrinks from 500 to 120 bytes and is
    re-opened; the damage window is not reset: it still holds the damage
    buffered before. *)
Lemma C9_counterexample :
  Follow.step (file_of_size 120)
    (with_damages [damage_V_K],
     {| Follow.f_pos := 500; Follow.file_size := 500; Follow.line_counter := 0 |})
    (with_damages [damage_V_K],
     {| Follow.f_pos := 120; Follow.file_size := 120; Follow.line_counter := 0 |}) /\
  recent_damages (with_damages [damage_V_K]) <> recent_damages (init true).
Proof.
  split.
  - exact (Follow.step_poll (file_of_size 120) (with_damages [damage_V_K])
             {| Follow.f_pos := 500; Follow.file_size := 500; Follow.line_counter := 0 |}
             eq_refl).
  - discriminate.
Qed.

(** C10 (confirmed). [seen_tks] membership and the damage lookup compare
    the log id as the matched digit string, while the wrap-around test
    uses [int(log_id)]. For any two ids [a = 0...0 ++ b] and [b] that
    differ only in leading zeros (as "0400" and "400"), [int a = int b]
    and the wrap-around test and [last_log_id] update are the same for
    both, yet [a <> b]: a teamkill line with either id is not a duplicate
    of the other id in [seen_tks] and does not correlate with a buffered
    damage of the other id. *)
Theorem C10_log_id_string_vs_int :
  int "0400" = int "400" /\ "0400" <> "400" /\
  forall n b, (0 < n)%nat ->
    int (zeros n ++ b) = int b /\ (zeros n ++ b)%string <> b /\
    (forall st, after_wrap (zeros n ++ b) st = after_wrap b st) /\
    forall x y, (x = (zeros n ++ b)%string /\ y = b) \/ (x = b /\ y = (zeros n ++ b)%string) ->
    forall line caps st,
      search teamkill_rx line = Some caps -> grp "log_id" caps = x ->
      (y ∈ seen_tks st -> x ∉ seen_tks st ->
       forall dm t,
         find_damage x (recent_damages st) = Some dm ->
         strptime (dm_time dm) = Some t ->
         result (match_teamkill line st) = Some (Some (tk_of t dm))) /\
      (x ∉ seen_tks st ->
       find_damage y (recent_damages st) <> None ->
       find_damage x (recent_damages st) = None ->
       result (match_teamkill line st) = Some None).
Proof.
  split; [reflexivity|split; [discriminate|]].
  intros n b Hn.
  split; [apply int_zeros|split; [apply zeros_app_neq; exact Hn|split]].
  - intros st. unfold after_wrap. rewrite int_zeros. reflexivity.
  - intros x y _ line caps st Hs Hx. subst x. split.
    + intros _ Hnx dm t Hf Ht.
      rewrite (match_teamkill_hit line st caps dm Hs Hnx Hf), Ht. reflexivity.
    + intros Hnx _ Hf.
      rewrite match_teamkill_eq, Hs. cbn zeta.
      destruct (decide _) as [Hin|_].
      { exfalso. apply Hnx. apply (after_wrap_seen_sub (grp "log_id" caps) st). exact Hin. }
      rewrite after_wrap_recent, Hf. reflexivity.
Qed.

Lemma C10_witness :
  int (zeros 1 ++ "400") = int "400" /\
  result (match_teamkill (teamkill_line "0400")
            (set_seen_tks {["400"]} (with_damages [damage_with_id "0400"]))) =
    Some (Some (tk_of (mkDatetime 2024 1 1 0 0 0 0) (damage_with_id "0400"))) /\
  result (match_teamkill (teamkill_line "0400") (with_damages [damage_with_id "400"])) =
    Some None /\
  result (match_teamkill (teamkill_line "400") (with_damages [damage_with_id "0400"])) =
    Some None.
Proof.
  destruct C10_log_id_string_vs_int as (_ & _ & H).
  destruct (H 1%nat "400" ltac:(lia)) as (Hi & _ & _ & Hl).
  split; [exact Hi|split; [|split]].
  - apply (proj1 (Hl (zeros 1 ++ "400") "400" (or_introl (conj eq_refl eq_refl))
                     (teamkill_line "0400") [("log_id", "0400")]
                     (set_seen_tks {["400"]} (with_damages [damage_with_id "0400"]))
                     ltac:(vm_compute; reflexivity) ltac:(vm_compute; reflexivity))).
    + decide_closed.
    + decide_closed.
    + vm_compute. reflexivity.
    + vm_compute. reflexivity.
  - apply (proj2 (Hl (zeros 1 ++ "400") "400" (or_introl (conj eq_refl eq_refl))
                     (teamkill_line "0400") [("log_id", "0400")]
                     (with_damages [damage_with_id "400"])
                     ltac:(vm_compute; reflexivity) ltac:(vm_compute; reflexivity))).
    + decide_closed.
    + vm_compute. discriminate.
    + vm_compute. reflexivity.
  - apply (proj2 (Hl "400" (zeros 1 ++ "400") (or_intror (conj eq_refl eq_refl))
                     (teamkill_line "400") [("log_id", "400")]
                     (with_damages [damage_with_id "0400"])
                     ltac:(vm_compute; reflexivity) ltac:(vm_compute; reflexivity))).
    + decide_closed.
    + vm_compute. discriminate.
    + vm_compute. reflexivity.
Defined.

End Claims.


(* ------------------------------------------------------------------ *)
(** ** Further properties of the code *)

Module Extras.
Import Re Patterns ReSpec Time TKMonitor Follow Samples Facts.

(** Let [simpl] compute string concatenation on a known head. *)
#[local] Arguments String.append : simpl nomatch.

(** *** Strings *)

Lemma sapp_assoc (a b c : string) : ((a ++ b) ++ c) = (a ++ (b ++ c)).
Proof. induction a as [|ch a IH]; simpl; [reflexivity|]. rewrite IH. reflexivity. Qed.

Lemma sapp_nil (a : string) : (a ++ "") = a.
Proof. induction a as [|ch a IH]; simpl; [reflexivity|]. rewrite IH. reflexivity. Qed.

Lemma slen_app (a b : string) : String.length (a ++ b) = String.length a + String.length b.
Proof. induction a as [|ch a IH]; simpl; lia. Qed.

Lemma stake_app (a b : string) : stake (String.length a) (a ++ b) = a.
Proof. induction a as [|ch a IH]; simpl; [reflexivity|]. rewrite IH. reflexivity. Qed.

Lemma sdrop_app (a b : string) : sdrop (String.length a) (a ++ b) = b.
Proof. induction a as [|ch a IH]; simpl; [reflexivity|]. exact IH. Qed.

Lemma sdrop_add i j s : sdrop j (sdrop i s) = sdrop (i + j) s.
Proof.
  revert s. induction i as [|i IH]; intros s; [reflexivity|].
  destruct s as [|c s]; simpl; [destruct j; reflexivity|]. apply IH.
Qed.

Lemma slen_sdrop i s : String.length (sdrop i s) = String.length s - i.
Proof.
  revert s. induction i as [|i IH]; intros s; simpl; [lia|].
  destruct s as [|c s]; simpl; [reflexivity|]. apply IH.
Qed.

Lemma stake_sdrop i s : (stake i s ++ sdrop i s) = s.
Proof.
  revert s. induction i as [|i IH]; intros s; [reflexivity|].
  destruct s as [|c s]; simpl; [reflexivity|]. rewrite IH. reflexivity.
Qed.

Lemma slen_stake i s : i <= String.length s -> String.length (stake i s) = i.
Proof.
  revert s. induction i as [|i IH]; intros s Hi; [reflexivity|].
  destruct s as [|c s]; simpl in *; [lia|]. rewrite IH; lia.
Qed.

Lemma stake_add i j s : stake (i + j) s = (stake i s ++ stake j (sdrop i s)).
Proof.
  revert s. induction i as [|i IH]; intros s; [reflexivity|].
  destruct s as [|c s]; simpl; [destruct j; reflexivity|]. rewrite IH. reflexivity.
Qed.

Lemma all_chars_app p a b : all_chars p (a ++ b) = all_chars p a && all_chars p b.
Proof. induction a as [|c a IH]; simpl; [reflexivity|]. rewrite IH, andb_assoc. reflexivity. Qed.

Lemma all_chars_mono (p q : ascii -> bool) s :
  (forall c, q c = true -> p c = true) -> all_chars q s = true -> all_chars p s = true.
Proof.
  intros Hpq. induction s as [|c s IH]; simpl; [reflexivity|].
  intros H. apply andb_prop in H as [H1 H2]. rewrite (Hpq c H1), (IH H2). reflexivity.
Qed.

Lemma all_chars_stake_span p m s : m <= span p s -> all_chars p (stake m s) = true.
Proof.
  revert s. induction m as [|m IH]; intros s Hm; [reflexivity|].
  destruct s as [|c s]; simpl in *; [reflexivity|].
  destruct (p c); [|lia]. simpl. apply IH. lia.
Qed.

Lemma span_le p s : span p s <= String.length s.
Proof. induction s as [|c s IH]; simpl; [lia|]. destruct (p c); simpl; lia. Qed.

(** *** The matcher: soundness *)

Lemma star_try_sound {T} (k : string -> captures -> option T) s caps n x :
  star_try k s caps n = Some x -> exists m, m <= n /\ k (sdrop m s) caps = Some x.
Proof.
  induction n as [|n IH]; cbn [star_try].
  - destruct (k (sdrop 0 s) caps) eqn:E; intros H; [|discriminate].
    exists 0. split; [lia|]. rewrite E. exact H.
  - destruct (k (sdrop (S n) s) caps) eqn:E; intros H.
    + exists (S n). split; [lia|]. rewrite E. exact H.
    + destruct (IH H) as (m & Hm & Hk). exists m. split; [lia|exact Hk].
Qed.

Lemma mtch_sound gp ne r : forall T s caps (k : string -> captures -> option T) x,
  mtch r s caps k = Some x ->
  exists j added,
    j <= String.length s /\ k (sdrop j s) (added ++ caps)%list = Some x /\
    (wf gp ne r -> Forall (group_ok gp ne) added) /\
    (forall p, only_chars p r -> all_chars p (stake j s) = true) /\
    (nonempty r -> 0 < j) /\
    (forall n, In n (must r) -> In n (map fst added)).
Proof.
  induction r as [q|r1 IH1 r2 IH2|r1 IH1 r2 IH2|q|n r1 IH|]; intros T s caps k x H.
  - (* Chr *)
    destruct s as [|c s]; simpl in H; [discriminate|].
    destruct (q c) eqn:Hq; [|discriminate].
    exists 1, []. simpl. split; [lia|]. split; [exact H|]. split; [intros _; constructor|].
    split; [|split; [intros _; lia|intros n []]].
    intros p Hp. rewrite (Hp c Hq). reflexivity.
  - (* Seq *)
    simpl in H. apply IH1 in H as (j1 & a1 & Hj1 & H1 & Hw1 & Ho1 & Hn1 & Hm1).
    apply IH2 in H1 as (j2 & a2 & Hj2 & H2 & Hw2 & Ho2 & Hn2 & Hm2).
    rewrite slen_sdrop in Hj2.
    exists (j1 + j2), (a2 ++ a1)%list. split; [lia|]. split.
    { rewrite <- sdrop_add, <- app_assoc. exact H2. }
    split; [intros [W1 W2]; apply Forall_app; auto|]. split.
    { intros p [P1 P2]. rewrite stake_add, all_chars_app, (Ho1 p P1), (Ho2 p P2). reflexivity. }
    split; [simpl; intros [N|N]; [specialize (Hn1 N)|specialize (Hn2 N)]; lia|].
    intros m Hm. simpl in Hm. rewrite map_app, in_app_iff.
    apply in_app_or in Hm as [Hm|Hm]; auto.
  - (* Alt *)
    simpl in H. destruct (mtch r1 s caps k) as [y|] eqn:E1.
    + injection H as <-. apply IH1 in E1 as (j & a & Hj & Hk & Hw & Ho & Hn & _).
      exists j, a. split; [exact Hj|]. split; [exact Hk|]. split; [intros [W _]; auto|].
      split; [intros p [P _]; auto|]. split; [intros [N _]; auto|intros m []].
    + apply IH2 in H as (j & a & Hj & Hk & Hw & Ho & Hn & _).
      exists j, a. split; [exact Hj|]. split; [exact Hk|]. split; [intros [_ W]; auto|].
      split; [intros p [_ P]; auto|]. split; [intros [_ N]; auto|intros m []].
  - (* Star *)
    simpl in H. apply star_try_sound in H as (m & Hm & Hk).
    exists m, []. pose proof (span_le q s).
    split; [lia|]. split; [exact Hk|]. split; [intros _; constructor|]. split.
    + intros p Hp. apply (all_chars_mono p q); [exact Hp|]. apply all_chars_stake_span. exact Hm.
    + split; [intros []|]. intros n [].
  - (* Group *)
    simpl in H. apply IH in H as (j & a & Hj & Hk & Hw & Ho & Hn & Hm).
    rewrite slen_sdrop in Hk.
    replace (String.length s - (String.length s - j)) with j in Hk by lia.
    exists j, ((n, stake j s) :: a). split; [exact Hj|]. split; [exact Hk|].
    split.
    { intros (P & N & W). constructor; [|auto]. split.
      - simpl. apply Ho. exact P.
      - simpl. intros E Hs. specialize (Hn (N E)).
        apply (f_equal String.length) in Hs. rewrite slen_stake in Hs by lia. simpl in Hs. lia. }
    split; [exact Ho|]. split; [exact Hn|].
    intros m [<-|Hm']; simpl; auto.
  - (* Eps *)
    simpl in H. exists 0, []. split; [lia|]. split; [exact H|]. split; [intros _; constructor|].
    split; [reflexivity|]. split; [intros []|intros n []].
Qed.

Lemma search_sound gp ne r s caps :
  wf gp ne r -> search r s = Some caps ->
  Forall (group_ok gp ne) caps /\ (forall n, In n (must r) -> In n (map fst caps)).
Proof.
  intros W. induction s as [|c s IH]; simpl.
  all: destruct (mtch r _ [] (fun _ caps => Some caps)) as [caps'|] eqn:E.
  all: try (intros H; injection H as <-;
            apply (mtch_sound gp ne) in E as (j & a & _ & Hk & Hw & _ & _ & Hm);
            injection Hk as <-; rewrite app_nil_r; split; [exact (Hw W)|exact Hm]).
  - discriminate.
  - exact IH.
Qed.

Lemma group_found gp ne n caps :
  Forall (group_ok gp ne) caps -> In n (map fst caps) ->
  exists v, group n caps = Some v /\ group_ok gp ne (n, v).
Proof.
  induction caps as [|[n' v'] caps IH]; simpl; [intros _ []|].
  intros Hf Hin. inversion Hf as [|? ? Hok Hf']; subst.
  destruct (String.eqb_spec n' n) as [->|Hne].
  - exists v'. split; [reflexivity|exact Hok].
  - destruct Hin as [->|Hin]; [congruence|]. exact (IH Hf' Hin).
Qed.

Lemma teamkill_rx_wf : wf group_chars group_nonempty teamkill_rx.
Proof. vm_compute. repeat split; intros; auto; discriminate. Qed.

Lemma damage_rx_wf : wf group_chars group_nonempty damage_rx.
Proof. vm_compute. repeat split; intros; auto; discriminate. Qed.

Lemma int_acc_nonneg acc s :
  (0 <= acc)%Z -> all_chars is_digit s = true -> (0 <= int_acc acc s)%Z.
Proof.
  revert acc. induction s as [|c s IH]; intros acc Ha Hs; simpl in *; [exact Ha|].
  apply andb_prop in Hs as [Hc Hs]. apply IH; [|exact Hs].
  unfold is_digit in Hc. apply andb_prop in Hc as [Hc _]. apply Nat.leb_le in Hc. lia.
Qed.

Lemma teamkill_log_id caps line :
  search teamkill_rx line = Some caps ->
  group "log_id" caps = Some (grp "log_id" caps) /\
  grp "log_id" caps <> "" /\ all_chars is_digit (grp "log_id" caps) = true.
Proof.
  intros Hs. destruct (search_sound _ _ _ _ _ teamkill_rx_wf Hs) as [Hf Hm].
  destruct (group_found _ _ "log_id" caps Hf) as (v & Hv & Hok1 & Hok2).
  { apply Hm. simpl. auto. }
  unfold grp. rewrite Hv. simpl. split; [reflexivity|]. split; [apply Hok2; reflexivity|exact Hok1].
Qed.

Lemma damage_of_ok line caps :
  search damage_rx line = Some caps -> damage_ok (damage_of caps).
Proof.
  intros Hs. destruct (search_sound _ _ _ _ _ damage_rx_wf Hs) as [Hf Hm].
  assert (G : forall n, In n (must damage_rx) ->
            all_chars (group_chars n) (grp n caps) = true /\
            (group_nonempty n = true -> grp n caps <> "")).
  { intros n Hn. destruct (group_found _ _ n caps Hf (Hm n Hn)) as (v & Hv & Hok).
    unfold grp. rewrite Hv. exact Hok. }
  destruct (G "time") as [T1 T2]; [simpl; tauto|].
  destruct (G "log_id") as [L1 L2]; [simpl; tauto|].
  destruct (G "weapon") as [W1 _]; [simpl; tauto|].
  destruct (G "victim") as [V1 _]; [simpl; tauto|].
  destruct (G "killer") as [K1 _]; [simpl; tauto|].
  unfold damage_ok, damage_of; simpl.
  repeat split; auto.
Qed.

(** *** [parse_line]: how each line changes the monitor *)

Lemma search_head_fails p r s :
  all_chars (fun c => negb (p c)) s = true -> search (Seq (Chr p) r) s = None.
Proof.
  induction s as [|c s IH]; simpl; [reflexivity|].
  intros H. apply andb_prop in H as [Hc Hs].
  destruct (p c); [discriminate|]. apply IH. exact Hs.
Qed.

Lemma push_damage_len dm w : length w <= 20 -> length (push_damage dm w) <= 20.
Proof.
  intros H. unfold push_damage. cbn zeta. rewrite length_app. simpl.
  destruct (20 <? length w + 1)%nat eqn:E.
  - apply Nat.ltb_lt in E. destruct w as [|x w]; simpl in *; [lia|].
    rewrite length_app. simpl. lia.
  - apply Nat.ltb_ge in E. rewrite length_app. simpl. lia.
Qed.

Lemma push_damage_Forall (P : damage -> Prop) dm w :
  Forall P w -> P dm -> Forall P (push_damage dm w).
Proof.
  intros Hw Hd. unfold push_damage. cbn zeta.
  assert (Happ : Forall P (w ++ [dm])%list) by (apply Forall_app; auto).
  destruct (20 <? _)%nat; [|exact Happ].
  destruct (w ++ [dm])%list as [|x l]; simpl; [constructor|]. inversion Happ; auto.
Qed.

Lemma parse_line_recent line st :
  recent_damages (final_state (parse_line line st)) = recent_damages st \/
  exists caps, search damage_rx line = Some caps /\
    recent_damages (final_state (parse_line line st)) =
    push_damage (damage_of caps) (recent_damages st).
Proof.
  rewrite parse_line_eq.
  pose proof (match_admincam_frame line st) as (Ha & _ & _).
  destruct (match_admincam line st) as [[|] st1|e st1] eqn:Ea; simpl in Ha.
  - left. exact Ha.
  - apply match_admincam_false in Ea. subst st1.
    rewrite match_damage_eq. destruct (search damage_rx line) as [caps|] eqn:Ed.
    + right. exists caps. split; reflexivity.
    + left. apply (match_teamkill_keeps line st).
  - left. exact Ha.
Qed.

Lemma match_admincam_log line st :
  exists suffix,
    length suffix <= 1 /\
    Forall (fun e => ae_change e = ENTER \/ ae_change e = LEAVE) suffix /\
    admincam_log (final_state (match_admincam line st)) = (admincam_log st ++ suffix)%list.
Proof.
  rewrite match_admincam_eq.
  destruct (search possess_rx line) as [caps|].
  - rewrite log_admincam_eq. destruct (strptime _) as [t|]; [destruct (admincam_log_writable _)|].
    + exists [{| ae_time := t; ae_change := ENTER; ae_user := grp "user" caps |}].
      split; [simpl; lia|]. split; [repeat constructor; left; reflexivity|reflexivity].
    + exists []. simpl. rewrite app_nil_r. auto.
    + exists []. simpl. rewrite app_nil_r. auto.
  - destruct (search unpossess_rx line) as [caps|].
    2:{ exists []. simpl. rewrite app_nil_r. auto. }
    destruct (decide _). { exists []. simpl. rewrite app_nil_r. auto. }
    rewrite log_admincam_eq. destruct (strptime _) as [t|]; [destruct (admincam_log_writable _)|].
    + exists [{| ae_time := t; ae_change := LEAVE; ae_user := grp "user" caps |}].
      split; [simpl; lia|]. split; [repeat constructor; right; reflexivity|reflexivity].
    + exists []. simpl. rewrite app_nil_r. auto.
    + exists []. simpl. rewrite app_nil_r. auto.
Qed.

Lemma tk_follow_gen_app l1 l2 st :
  tk_follow_gen (l1 ++ l2) st =
  match tk_follow_gen l1 st with
  | (ys, None, st1) => let '(ys2, e, st2) := tk_follow_gen l2 st1 in ((ys ++ ys2)%list, e, st2)
  | (ys, Some e, st1) => (ys, Some e, st1)
  end.
Proof.
  revert st. induction l1 as [|line l1 IH]; intros st; simpl.
  - destruct (tk_follow_gen l2 st) as [[ys2 e] st2]. reflexivity.
  - destruct (parse_line line st) as [[tk|] st'|e st']; [|apply IH|reflexivity].
    rewrite IH. destruct (tk_follow_gen l1 st') as [[ys [e|]] st1]; [reflexivity|].
    destruct (tk_follow_gen l2 st1) as [[ys2 e] st2]. reflexivity.
Qed.

Lemma parse_line_raise_os line st st' :
  parse_line line st = Raise OSError st' ->
  admincam_log_writable st = false /\
  (search possess_rx line <> None \/ search unpossess_rx line <> None).
Proof.
  rewrite parse_line_eq.
  destruct (match_admincam line st) as [[|] st1|e st1] eqn:Ea.
  - discriminate.
  - apply match_admincam_false in Ea. subst st1.
    rewrite match_damage_eq. destruct (search damage_rx line); [discriminate|].
    rewrite match_teamkill_eq. destruct (search teamkill_rx line) as [caps|]; [|discriminate].
    cbn zeta. destruct (decide _); [discriminate|].
    destruct (find_damage _ _); [destruct (strptime _)|]; discriminate.
  - intros H. injection H as -> ->. revert Ea. rewrite match_admincam_eq.
    destruct (search possess_rx line) as [caps|] eqn:Hp.
    + rewrite log_admincam_eq. simpl.
      destruct (strptime _); [destruct (admincam_log_writable st) eqn:Hw|];
        intros H; inversion H; subst; split; auto; left; discriminate.
    + destruct (search unpossess_rx line) as [caps|] eqn:Hu; [|discriminate].
      destruct (decide _); [discriminate|].
      rewrite log_admincam_eq. simpl.
      destruct (strptime _); [destruct (admincam_log_writable st) eqn:Hw|];
        intros H; inversion H; subst; split; auto; right; discriminate.
Qed.

Lemma find_damage_in id w dm :
  find_damage id w = Some dm -> In dm w /\ dm_log_id dm = id.
Proof.
  unfold find_damage. intros H. apply find_some in H as [Hin Heq].
  split; [exact Hin|]. apply String.eqb_eq. exact Heq.
Qed.

(** *** The extra properties *)

(** X1. A line with no [\[] in it matches none of the four patterns (each
    starts with [\[]): [parse_line] returns [None] and changes nothing. *)
Theorem X1_line_without_bracket_ignored line st :
  all_chars (not_char "["%char) line = true -> parse_line line st = Ret None st.
Proof.
  intros H.
  assert (Hp : search possess_rx line = None)
    by (apply (search_head_fails (fun c => Ascii.eqb c "["%char)); exact H).
  assert (Hu : search unpossess_rx line = None)
    by (apply (search_head_fails (fun c => Ascii.eqb c "["%char)); exact H).
  assert (Hd : search damage_rx line = None)
    by (apply (search_head_fails (fun c => Ascii.eqb c "["%char)); exact H).
  assert (Ht : search teamkill_rx line = None)
    by (apply (search_head_fails (fun c => Ascii.eqb c "["%char)); exact H).
  rewrite parse_line_eq, match_admincam_eq, Hp, Hu, match_damage_eq, Hd, match_teamkill_eq, Ht.
  reflexivity.
Qed.

Lemma X1_witness :
  all_chars (not_char "["%char) "LogSquad: Player:V ActualDamage=10.0 from K caused by BP_AK47_C" = true /\
  parse_line "LogSquad: Player:V ActualDamage=10.0 from K caused by BP_AK47_C" (init true) =
    Ret None (init true).
Proof.
  split; [vm_compute; reflexivity|].
  apply X1_line_without_bracket_ignored. vm_compute. reflexivity.
Defined.

(** X2. The damage window never holds more than 20 records: from a state
    whose window has at most 20, it has at most 20 after any sequence of
    lines, whether the last one returned or raised. *)
Theorem X2_damage_window_at_most_20 lines st :
  length (recent_damages st) <= 20 ->
  length (recent_damages (snd (tk_follow_gen lines st))) <= 20.
Proof.
  revert st. induction lines as [|line lines IH]; intros st H; simpl; [exact H|].
  assert (Hs : length (recent_damages (final_state (parse_line line st))) <= 20).
  { destruct (parse_line_recent line st) as [E|(caps & _ & E)]; rewrite E;
      [exact H|apply push_damage_len; exact H]. }
  destruct (parse_line line st) as [[tk|] st'|e st']; simpl in Hs.
  - specialize (IH st' Hs). destruct (tk_follow_gen lines st') as [[ys e] st'']. exact IH.
  - exact (IH st' Hs).
  - exact Hs.
Qed.

Lemma X2_witness :
  length (recent_damages (init true)) <= 20 /\
  length (recent_damages (snd (tk_follow_gen [damage_line; damage_line] (init true)))) <= 20.
Proof.
  split; [simpl; lia|]. apply X2_damage_window_at_most_20. simpl. lia.
Defined.

(** X3. Every buffered damage record has the shape the damage pattern
    gives its groups: a non-empty time without [\]], a non-empty log id of
    ASCII digits, a weapon without [_], victim and killer without a
    newline. Processing lines keeps this true of the whole window. *)
Theorem X3_damage_records_well_formed lines st :
  Forall damage_ok (recent_damages st) ->
  Forall damage_ok (recent_damages (snd (tk_follow_gen lines st))).
Proof.
  revert st. induction lines as [|line lines IH]; intros st H; simpl; [exact H|].
  assert (Hs : Forall damage_ok (recent_damages (final_state (parse_line line st)))).
  { destruct (parse_line_recent line st) as [E|(caps & Hd & E)]; rewrite E; [exact H|].
    apply push_damage_Forall; [exact H|]. exact (damage_of_ok line caps Hd). }
  destruct (parse_line line st) as [[tk|] st'|e st']; simpl in Hs.
  - specialize (IH st' Hs). destruct (tk_follow_gen lines st') as [[ys e] st'']. exact IH.
  - exact (IH st' Hs).
  - exact Hs.
Qed.

Lemma X3_witness :
  Forall damage_ok (recent_damages (init true)) /\
  Forall damage_ok (recent_damages (snd (tk_follow_gen [damage_line; teamkill_line "55"] (init true)))).
Proof.
  split; [constructor|]. apply X3_damage_records_well_formed. constructor.
Defined.

(** X4. Whenever the teamkill pattern matches, its [log_id] group is set
    and is a non-empty string of ASCII digits, so [int(log_id)] in
    [_match_teamkill] gets a decimal numeral and the value is at least 0. *)
Theorem X4_teamkill_log_id_is_numeral line caps :
  search teamkill_rx line = Some caps ->
  group "log_id" caps = Some (grp "log_id" caps) /\
  grp "log_id" caps <> "" /\ all_chars is_digit (grp "log_id" caps) = true /\
  (0 <= int (grp "log_id" caps))%Z.
Proof.
  intros Hs. destruct (teamkill_log_id caps line Hs) as (H1 & H2 & H3).
  split; [exact H1|]. split; [exact H2|]. split; [exact H3|].
  apply int_acc_nonneg; [lia|exact H3].
Qed.

Lemma X4_witness :
  search teamkill_rx (teamkill_line "0400") = Some [("log_id", "0400")] /\
  (0 <= int (grp "log_id" [("log_id", "0400")]))%Z.
Proof.
  split; [vm_compute; reflexivity|].
  refine (proj2 (proj2 (proj2 (X4_teamkill_log_id_is_numeral (teamkill_line "0400")
                                  [("log_id", "0400")] _)))).
  vm_compute. reflexivity.
Defined.

(** X5. admincam.log is append-only: one line adds at most one entry,
    an ENTER or a LEAVE, after the existing ones, and nothing written
    before is removed or changed, whether the line returns or raises. *)
Theorem X5_admincam_log_append_only line st :
  exists suffix,
    length suffix <= 1 /\
    Forall (fun e => ae_change e = ENTER \/ ae_change e = LEAVE) suffix /\
    admincam_log (final_state (parse_line line st)) = (admincam_log st ++ suffix)%list.
Proof.
  rewrite parse_line_eq.
  pose proof (match_admincam_log line st) as (suf & Hl & Hc & He).
  destruct (match_admincam line st) as [[|] st1|e st1] eqn:Ea; simpl in He.
  - exists suf. auto.
  - apply match_admincam_false in Ea. subst st1. exists [].
    split; [simpl; lia|]. split; [constructor|]. rewrite app_nil_r.
    pose proof (match_damage_keeps line st) as (_ & Hd & _).
    destruct (match_damage line st) as [[|] st2|e st2] eqn:Ed; simpl in Hd; [exact Hd| |exact Hd].
    apply match_damage_false in Ed. subst st2.
    apply (match_teamkill_keeps line st).
  - exists suf. auto.
Qed.

(** X6. [parse_line] raises [OSError] only when admincam.log cannot be
    opened for appending, and only on a line matching the possess or the
    unpossess pattern; the damage and teamkill paths never raise it. *)
Theorem X6_oserror_only_from_admincam_log line st st' :
  parse_line line st = Raise OSError st' ->
  admincam_log_writable st = false /\
  (search possess_rx line <> None \/ search unpossess_rx line <> None).
Proof. exact (parse_line_raise_os line st st'). Qed.

Lemma X6_witness :
  parse_line (possess_line "Alice") (init false) =
    Raise OSError (set_active {["Alice"]} (init false)) /\
  admincam_log_writable (init false) = false.
Proof.
  assert (H : parse_line (possess_line "Alice") (init false) =
              Raise OSError (set_active {["Alice"]} (init false))).
  { vm_compute. f_equal. }
  split; [exact H|].
  exact (proj1 (X6_oserror_only_from_admincam_log _ _ _ H)).
Defined.

(** X7. Every teamkill [parse_line] returns comes from a damage record
    buffered before the line, whose log id string equals the teamkill
    line's and whose time parses: the teamkill carries that time and the
    record's victim, killer and weapon, and its log id is then in
    [seen_tks]. *)
Theorem X7_teamkill_backed_by_buffered_damage line st tk st' :
  parse_line line st = Ret (Some tk) st' ->
  exists caps dm t,
    search teamkill_rx line = Some caps /\
    In dm (recent_damages st) /\ dm_log_id dm = grp "log_id" caps /\
    strptime (dm_time dm) = Some t /\ tk = tk_of t dm /\
    grp "log_id" caps ∈ seen_tks st'.
Proof.
  rewrite parse_line_eq.
  destruct (match_admincam line st) as [[|] st1|e st1] eqn:Ea; [discriminate| |discriminate].
  apply match_admincam_false in Ea. subst st1.
  destruct (match_damage line st) as [[|] st2|e st2] eqn:Ed; [discriminate| |discriminate].
  apply match_damage_false in Ed. subst st2.
  rewrite match_teamkill_eq. destruct (search teamkill_rx line) as [caps|]; [|discriminate].
  cbn zeta. destruct (decide _); [discriminate|].
  destruct (find_damage _ _) as [dm|] eqn:Ef; [|discriminate].
  destruct (strptime (dm_time dm)) as [t|] eqn:Et; [|discriminate].
  intros H. injection H as <- <-.
  rewrite after_wrap_recent in Ef. apply find_damage_in in Ef as [Hin Hid].
  exists caps, dm, t. repeat split; auto. simpl. set_solver.
Qed.

Lemma X7_witness :
  exists caps dm t,
    search teamkill_rx (teamkill_line "55") = Some caps /\
    In dm (recent_damages (with_damages [damage_V_K])) /\ dm_log_id dm = grp "log_id" caps /\
    strptime (dm_time dm) = Some t /\ teamkill_V_K = tk_of t dm /\
    grp "log_id" caps ∈ seen_tks (final_state (parse_line (teamkill_line "55") (with_damages [damage_V_K]))).
Proof.
  apply (X7_teamkill_backed_by_buffered_damage (teamkill_line "55") (with_damages [damage_V_K])).
  vm_compute. reflexivity.
Defined.

(** X8. [tk_follow] over two runs of lines is the first run, then, if it
    ended without an exception, the second from the state it left: an
    exception on a line ends the generator, keeps the teamkills yielded
    before it, and no later line is read. *)
Theorem X8_tk_follow_sequencing l1 l2 st :
  tk_follow_gen (l1 ++ l2) st =
  match tk_follow_gen l1 st with
  | (ys, None, st1) => let '(ys2, e, st2) := tk_follow_gen l2 st1 in ((ys ++ ys2)%list, e, st2)
  | (ys, Some e, st1) => (ys, Some e, st1)
  end.
Proof. exact (tk_follow_gen_app l1 l2 st). Qed.

(** *** [strptime] on well-formed server timestamps *)

Lemma consumes_chr2 (p1 p2 : ascii -> bool) c1 c2 :
  p1 c1 = true -> p2 c2 = true ->
  consumes (Seq (Chr p1) (Chr p2)) (String c1 (String c2 "")) [].
Proof. intros H1 H2 T rest caps k x Hk. simpl. rewrite H1, H2. exact Hk. Qed.

Lemma consumes_lit1 c : consumes (lit (String c "")) (String c "") [].
Proof. intros T rest caps k x Hk. simpl. rewrite Ascii.eqb_refl. exact Hk. Qed.

Lemma consumes_alt_l r1 r2 w a : consumes r1 w a -> consumes (Alt r1 r2) w a.
Proof. intros H T rest caps k x Hk. simpl. rewrite (H T rest caps k x Hk). reflexivity. Qed.

Lemma consumes_alt_r r1 r2 w a : fails r1 w -> consumes r2 w a -> consumes (Alt r1 r2) w a.
Proof. intros F H T rest caps k x Hk. simpl. rewrite F. exact (H T rest caps k x Hk). Qed.

Lemma fails_first (p : ascii -> bool) r c w : p c = false -> fails (Seq (Chr p) r) (String c w).
Proof. intros Hp T rest caps k. simpl. rewrite Hp. reflexivity. Qed.

Lemma consumes_group n r w a : consumes r w a -> consumes (Group n r) w ((n, w) :: a).
Proof.
  intros H T rest caps k x Hk. simpl. apply H.
  rewrite slen_app. replace (String.length w + String.length rest - String.length rest)
    with (String.length w) by lia.
  rewrite stake_app. exact Hk.
Qed.

Lemma consumes_group_end n r w a : consumes_end r w a -> consumes_end (Group n r) w ((n, w) :: a).
Proof.
  intros H T caps k x Hk. simpl. apply H. simpl.
  replace (String.length w - 0) with (String.length w) by lia.
  pose proof (stake_app w "") as E. rewrite sapp_nil in E. rewrite E. exact Hk.
Qed.

Lemma consumes_seq_end r1 w1 a1 r2 w2 a2 :
  consumes r1 w1 a1 -> consumes_end r2 w2 a2 -> consumes_end (Seq r1 r2) (w1 ++ w2) (a2 ++ a1)%list.
Proof.
  intros H1 H2 T caps k x Hk. simpl. apply H1. apply H2. rewrite app_assoc. exact Hk.
Qed.

Lemma consumes_seq r1 w1 a1 r2 w2 a2 :
  consumes r1 w1 a1 -> consumes r2 w2 a2 -> consumes (Seq r1 r2) (w1 ++ w2) (a2 ++ a1)%list.
Proof.
  intros H1 H2 T rest caps k x Hk. simpl. rewrite sapp_assoc. apply H1. apply H2.
  rewrite app_assoc. exact Hk.
Qed.

Lemma upto_end n g :
  all_chars is_digit g = true -> String.length g <= n -> consumes_end (upto n Time.d) g [].
Proof.
  revert n. induction g as [|c g IH]; intros n Hg Hn T caps k x Hk.
  - destruct n; simpl; exact Hk.
  - destruct n as [|n]; simpl in Hn; [lia|]. simpl in Hg. apply andb_prop in Hg as [Hc Hg].
    simpl. rewrite Hc. rewrite (IH n Hg ltac:(lia) T caps k x Hk). reflexivity.
Qed.

Lemma frac_end f :
  all_chars is_digit f = true -> 1 <= String.length f <= 6 ->
  consumes_end (Seq Time.d (upto 5 Time.d)) f [].
Proof.
  destruct f as [|c g]; simpl; intros Hf Hn; [lia|]. apply andb_prop in Hf as [Hc Hg].
  intros T caps k x Hk. simpl. rewrite Hc. exact (upto_end 5 g Hg ltac:(lia) T caps k x Hk).
Qed.

Lemma nat_of_digit k : (0 <= k <= 9)%Z -> nat_of_ascii (digit k) = 48 + Z.to_nat k.
Proof. intros H. unfold digit. apply Ascii.nat_ascii_embedding. lia. Qed.

Lemma is_digit_digit k : (0 <= k <= 9)%Z -> is_digit (digit k) = true.
Proof.
  intros H. unfold is_digit. rewrite nat_of_digit by exact H.
  apply andb_true_intro. split; apply Nat.leb_le; lia.
Qed.

Lemma digit_range_in lo hi k :
  (Z.of_nat lo <= k <= Z.of_nat hi)%Z -> (0 <= k <= 9)%Z -> digit_range lo hi (digit k) = true.
Proof.
  intros H H9. unfold digit_range. rewrite nat_of_digit by exact H9.
  apply andb_true_intro. split; apply Nat.leb_le; lia.
Qed.

Lemma digit_range_out lo hi k :
  (k < Z.of_nat lo \/ Z.of_nat hi < k)%Z -> (0 <= k <= 9)%Z -> digit_range lo hi (digit k) = false.
Proof.
  intros H H9. unfold digit_range. rewrite nat_of_digit by exact H9.
  destruct H as [H|H]; apply andb_false_iff; [left|right]; apply Nat.leb_gt; lia.
Qed.

Lemma eqb_digit k c :
  (0 <= k <= 9)%Z -> Ascii.eqb (digit k) c = Nat.eqb (48 + Z.to_nat k) (nat_of_ascii c).
Proof.
  intros H. rewrite <- nat_of_digit by exact H.
  destruct (Ascii.eqb_spec (digit k) c) as [->|Hne]; symmetry.
  - apply Nat.eqb_refl.
  - apply Nat.eqb_neq. intros E. apply Hne.
    rewrite <- (Ascii.ascii_nat_embedding (digit k)), <- (Ascii.ascii_nat_embedding c), E.
    reflexivity.
Qed.

Lemma int_pad2 n : (0 <= n <= 99)%Z -> int (pad2 n) = n.
Proof.
  intros H.
  assert (B : (0 <= n / 10 <= 9 /\ 0 <= n mod 10 <= 9 /\ n = 10 * (n / 10) + n mod 10)%Z)
    by (Z.div_mod_to_equations; lia).
  unfold int, pad2. simpl. rewrite !nat_of_digit by lia.
  rewrite !Nat2Z.inj_add, !Z2Nat.id by lia. lia.
Qed.

Lemma int_pad4 n : (0 <= n <= 9999)%Z -> int (pad4 n) = n.
Proof.
  intros H.
  assert (B : (0 <= n / 1000 <= 9 /\ 0 <= n / 100 mod 10 <= 9 /\ 0 <= n / 10 mod 10 <= 9 /\
               0 <= n mod 10 <= 9 /\
               n = 1000 * (n / 1000) + 100 * (n / 100 mod 10) + 10 * (n / 10 mod 10) + n mod 10)%Z)
    by (Z.div_mod_to_equations; lia).
  unfold int, pad4. simpl. rewrite !nat_of_digit by lia.
  rewrite !Nat2Z.inj_add, !Z2Nat.id by lia. lia.
Qed.

Ltac lit_code :=
  match goal with
  | |- context [nat_of_ascii ?c] =>
      let v := eval vm_compute in (nat_of_ascii c) in change (nat_of_ascii c) with v
  end.

Ltac digs :=
  cbv beta;
  match goal with
  | |- is_digit (digit _) = true => apply is_digit_digit; lia
  | |- digit_range _ _ (digit _) = true => apply digit_range_in; lia
  | |- digit_range _ _ (digit _) = false => apply digit_range_out; lia
  | |- Ascii.eqb (digit _) _ = true => rewrite eqb_digit by lia; apply Nat.eqb_eq; lit_code; lia
  | |- Ascii.eqb (digit _) _ = false => rewrite eqb_digit by lia; apply Nat.eqb_neq; lit_code; lia
  end.

Ltac two_digits n :=
  assert (0 <= n / 10 <= 9 /\ 0 <= n mod 10 <= 9 /\ n = 10 * (n / 10) + n mod 10)%Z
    by (Z.div_mod_to_equations; lia);
  unfold pad2; cbn [alts].

Lemma consumes_year y :
  (0 <= y <= 9999)%Z -> consumes (seqs [Time.d; Time.d; Time.d; Time.d]) (pad4 y) [].
Proof.
  intros H.
  assert (B : (0 <= y / 1000 <= 9 /\ 0 <= y / 100 mod 10 <= 9 /\ 0 <= y / 10 mod 10 <= 9 /\
               0 <= y mod 10 <= 9)%Z) by (Z.div_mod_to_equations; lia).
  intros T rest caps k x Hk. unfold pad4. cbn [seqs mtch Time.d String.append].
  rewrite (is_digit_digit (y / 1000)), (is_digit_digit (y / 100 mod 10)),
    (is_digit_digit (y / 10 mod 10)), (is_digit_digit (y mod 10)) by lia.
  exact Hk.
Qed.

Lemma consumes_month m :
  (1 <= m <= 12)%Z ->
  consumes (alts [Seq (lit "1") (rng 0 2); Seq (lit "0") (rng 1 9); rng 1 9]) (pad2 m) [].
Proof.
  intros H. two_digits m. destruct (Z_lt_le_dec m 10).
  - apply consumes_alt_r; [apply fails_first; digs|].
    apply consumes_alt_l. apply consumes_chr2; digs.
  - apply consumes_alt_l. apply consumes_chr2; digs.
Qed.

Lemma consumes_day dd :
  (1 <= dd <= 31)%Z ->
  consumes (alts [Seq (lit "3") (rng 0 1); Seq (rng 1 2) Time.d;
                  Seq (lit "0") (rng 1 9); rng 1 9; Seq (lit " ") (rng 1 9)]) (pad2 dd) [].
Proof.
  intros H. two_digits dd. destruct (Z_lt_le_dec dd 10); [|destruct (Z_lt_le_dec dd 30)].
  - apply consumes_alt_r; [apply fails_first; digs|].
    apply consumes_alt_r; [apply fails_first; digs|].
    apply consumes_alt_l. apply consumes_chr2; digs.
  - apply consumes_alt_r; [apply fails_first; digs|].
    apply consumes_alt_l. apply consumes_chr2; digs.
  - apply consumes_alt_l. apply consumes_chr2; digs.
Qed.

Lemma consumes_hour h :
  (0 <= h <= 23)%Z ->
  consumes (alts [Seq (lit "2") (rng 0 3); Seq (rng 0 1) Time.d; Time.d]) (pad2 h) [].
Proof.
  intros H. two_digits h. destruct (Z_lt_le_dec h 20).
  - apply consumes_alt_r; [apply fails_first; digs|].
    apply consumes_alt_l. apply consumes_chr2; digs.
  - apply consumes_alt_l. apply consumes_chr2; digs.
Qed.

Lemma consumes_minute mi :
  (0 <= mi <= 59)%Z -> consumes (alts [Seq (rng 0 5) Time.d; Time.d]) (pad2 mi) [].
Proof. intros H. two_digits mi. apply consumes_alt_l. apply consumes_chr2; digs. Qed.

Lemma consumes_second se :
  (0 <= se <= 61)%Z ->
  consumes (alts [Seq (lit "6") (rng 0 1); Seq (rng 0 5) Time.d; Time.d]) (pad2 se) [].
Proof.
  intros H. two_digits se. destruct (Z_lt_le_dec se 60).
  - apply consumes_alt_r; [apply fails_first; digs|].
    apply consumes_alt_l. apply consumes_chr2; digs.
  - apply consumes_alt_l. apply consumes_chr2; digs.
Qed.

Lemma consumes_end_eq r w a a' : consumes_end r w a -> a = a' -> consumes_end r w a'.
Proof. intros H <-. exact H. Qed.

Lemma strptime_rx_consumes y mo dd h mi se f :
  (0 <= y <= 9999)%Z -> (1 <= mo <= 12)%Z -> (1 <= dd <= 31)%Z ->
  (0 <= h <= 23)%Z -> (0 <= mi <= 59)%Z -> (0 <= se <= 61)%Z ->
  all_chars is_digit f = true -> 1 <= String.length f <= 6 ->
  consumes_end strptime_rx (server_time y mo dd h mi se f)
    [("f", f); ("S", pad2 se); ("M", pad2 mi); ("H", pad2 h);
     ("d", pad2 dd); ("m", pad2 mo); ("Y", pad4 y)].
Proof.
  intros Hy Hmo Hdd Hh Hmi Hse Hf Hlf. unfold strptime_rx, server_time. cbn [seqs].
  eapply consumes_end_eq.
  { eapply consumes_seq_end; [apply consumes_group, consumes_year, Hy|].
    eapply consumes_seq_end; [apply consumes_lit1|].
    eapply consumes_seq_end; [apply consumes_group, consumes_month, Hmo|].
    eapply consumes_seq_end; [apply consumes_lit1|].
    eapply consumes_seq_end; [apply consumes_group, consumes_day, Hdd|].
    eapply consumes_seq_end; [apply consumes_lit1|].
    eapply consumes_seq_end; [apply consumes_group, consumes_hour, Hh|].
    eapply consumes_seq_end; [apply consumes_lit1|].
    eapply consumes_seq_end; [apply consumes_group, consumes_minute, Hmi|].
    eapply consumes_seq_end; [apply consumes_lit1|].
    eapply consumes_seq_end; [apply consumes_group, consumes_second, Hse|].
    eapply consumes_seq_end; [apply consumes_lit1|].
    apply consumes_group_end, frac_end; assumption. }
  reflexivity.
Qed.

(** X9. [strptime(s, "%Y.%m.%d-%H.%M.%S:%f")] on a time field written as
    the server writes it (four-digit year, two-digit month, day, hour,
    minute and second, one to six fraction digits): it returns exactly
    those fields, with the fraction scaled to microseconds, when the
    date exists and the second is at most 59; it raises [ValueError] on
    a day past the end of the month (such as 29 February of a common
    year) and on seconds 60 and 61, which its pattern accepts. *)
Lemma strptime_server_time y mo dd h mi se f :
  (1 <= y <= 9999)%Z -> (1 <= mo <= 12)%Z -> (1 <= dd <= 31)%Z ->
  (0 <= h <= 23)%Z -> (0 <= mi <= 59)%Z -> (0 <= se <= 61)%Z ->
  all_chars is_digit f = true -> 1 <= String.length f <= 6 ->
  strptime (server_time y mo dd h mi se f) =
  if (dd <=? days_in_month y mo)%Z && (se <=? 59)%Z
  then Some (mkDatetime y mo dd h mi se (int f * 10 ^ (6 - Z.of_nat (String.length f))))
  else None.
Proof.
  intros Hy Hmo Hdd Hh Hmi Hse Hf Hlf.
  unfold strptime, match_prefix.
  rewrite (strptime_rx_consumes y mo dd h mi se f ltac:(lia) Hmo Hdd Hh Hmi Hse Hf Hlf
             _ [] (fun rest caps => Some (rest, caps)) _ eq_refl).
  cbn [group String.eqb Ascii.eqb Bool.eqb app].
  rewrite (int_pad4 y), (int_pad2 mo), (int_pad2 dd), (int_pad2 h), (int_pad2 mi), (int_pad2 se)
    by lia.
  cbn [year month day hour minute second microsecond].
  replace (1 <=? y)%Z with true by (symmetry; apply Z.leb_le; lia).
  reflexivity.
Qed.

(** X9. [strptime(s, "%Y.%m.%d-%H.%M.%S:%f")] on a time field written as
    the server writes it (four-digit year, two-digit month, day, hour,
    minute and second, one to six fraction digits): it returns exactly
    those fields, with the fraction scaled to microseconds, when the
    date exists and the second is at most 59; it raises [ValueError] on
    a day past the end of the month (such as 29 February of a common
    year) and on seconds 60 and 61, which its pattern accepts. *)
Theorem X9_strptime_server_time y mo dd h mi se f :
  (1 <= y <= 9999)%Z -> (1 <= mo <= 12)%Z -> (1 <= dd <= 31)%Z ->
  (0 <= h <= 23)%Z -> (0 <= mi <= 59)%Z -> (0 <= se <= 61)%Z ->
  all_chars is_digit f = true -> 1 <= String.length f <= 6 ->
  strptime (server_time y mo dd h mi se f) =
  if (dd <=? days_in_month y mo)%Z && (se <=? 59)%Z
  then Some (mkDatetime y mo dd h mi se (int f * 10 ^ (6 - Z.of_nat (String.length f))))
  else None.
Proof. exact (strptime_server_time y mo dd h mi se f). Qed.

Lemma X9_witness :
  strptime (server_time 2024 1 1 0 0 0 "000") = Some (mkDatetime 2024 1 1 0 0 0 0) /\
  strptime (server_time 2023 2 29 12 30 15 "5") = None /\
  strptime (server_time 2024 6 30 23 59 60 "123") = None.
Proof.
  split; [|split].
  - rewrite (X9_strptime_server_time 2024 1 1 0 0 0 "000");
      [vm_compute; reflexivity|lia..|reflexivity|simpl; lia].
  - rewrite (X9_strptime_server_time 2023 2 29 12 30 15 "5");
      [vm_compute; reflexivity|lia..|reflexivity|simpl; lia].
  - rewrite (X9_strptime_server_time 2024 6 30 23 59 60 "123");
      [vm_compute; reflexivity|lia..|reflexivity|simpl; lia].
Defined.

(** X10. The line [_match_admincam] appends to admincam.log for a
    well-formed server time: [\[YYYY.MM.DD - hh:mm:ss UTC\] change: user]
    and a newline, with the date and time fields of the log line and its
    fraction of a second dropped; nothing before it in the file changes. *)
Theorem X10_admincam_line_text caps change st y mo dd h mi se f :
  admincam_log_writable st = true ->
  grp "time" caps = server_time y mo dd h mi se f ->
  (1000 <= y <= 9999)%Z -> (1 <= mo <= 12)%Z -> (1 <= dd <= days_in_month y mo)%Z ->
  (0 <= h <= 23)%Z -> (0 <= mi <= 59)%Z -> (0 <= se <= 59)%Z ->
  all_chars is_digit f = true -> 1 <= String.length f <= 6 ->
  exists st',
    log_admincam caps change st = Ret true st' /\
    map admincam_line (admincam_log st') =
    (map admincam_line (admincam_log st) ++
     [("[" ++ pad4 y ++ "." ++ pad2 mo ++ "." ++ pad2 dd ++ " - " ++
       pad2 h ++ ":" ++ pad2 mi ++ ":" ++ pad2 se ++ " UTC] " ++ change ++ ": " ++
       grp "user" caps ++ String newline "")%string])%list.
Proof.
  intros Hw Ht Hy Hmo Hdd Hh Hmi Hse Hf Hlf.
  assert (Hdim : (days_in_month y mo <= 31)%Z).
  { unfold days_in_month. destruct (mo =? 2)%Z; [destruct (leap y)|];
      [lia|lia|destruct (existsb _ _); lia]. }
  rewrite log_admincam_eq, Ht.
  rewrite (strptime_server_time y mo dd h mi se f) by lia || assumption.
  replace ((dd <=? days_in_month y mo)%Z && (se <=? 59)%Z) with true
    by (symmetry; apply andb_true_intro; split; apply Z.leb_le; lia).
  rewrite Hw. eexists. split; [reflexivity|].
  cbn [admincam_log set_admincam_log]. rewrite map_app. reflexivity.
Qed.

Lemma X10_witness :
  exists st',
    log_admincam (cam_caps "Alice" "5") ENTER (init true) = Ret true st' /\
    map admincam_line (admincam_log st') =
    ["[2024.01.01 - 00:00:00 UTC] ++++++++++++ ENTER: Alice" ++ String newline ""].
Proof.
  destruct (X10_admincam_line_text (cam_caps "Alice" "5") ENTER (init true) 2024 1 1 0 0 0 "000")
    as (st' & H1 & H2); [reflexivity|reflexivity|lia|lia|vm_compute; split; discriminate|lia..|reflexivity|simpl; lia|].
  exists st'. split; [exact H1|]. rewrite H2. vm_compute. reflexivity.
Defined.

(** *** [_log_follow]: reading lines *)

Lemma line_length_le s : line_length s <= String.length s.
Proof. induction s as [|c s IH]; simpl; [lia|]. destruct (Ascii.eqb c newline); simpl; lia. Qed.

Lemma line_length_pos s : s <> "" -> 0 < line_length s.
Proof. destruct s as [|c s]; [congruence|]. simpl. destruct (Ascii.eqb c newline); lia. Qed.

Lemma line_length_app_plain a rest :
  all_chars (not_char newline) a = true ->
  line_length (a ++ rest) = String.length a + line_length rest.
Proof.
  induction a as [|c a IH]; simpl; [reflexivity|]. intros H. apply andb_prop in H as [Hc Ha].
  unfold not_char in Hc. destruct (Ascii.eqb c newline); [discriminate|]. rewrite IH; auto.
Qed.

Lemma line_length_stake s : line_length (stake (line_length s) s) = line_length s.
Proof.
  induction s as [|c s IH]; simpl; [reflexivity|].
  destruct (Ascii.eqb c newline) eqn:E; simpl; rewrite E; [reflexivity|]. rewrite IH. reflexivity.
Qed.

Lemma line_ends_nl s :
  line_length s < String.length s -> exists b, stake (line_length s) s = (b ++ String newline "").
Proof.
  induction s as [|c s IH]; simpl; [lia|].
  destruct (Ascii.eqb c newline) eqn:E.
  - intros _. exists "". apply Ascii.eqb_eq in E. subst c. reflexivity.
  - intros H. destruct IH as [b Hb]; [lia|]. exists (String c b). simpl. rewrite Hb. reflexivity.
Qed.

Lemma read_step_some content fs line fs' :
  read_step content fs = Some (line, fs') ->
  line = readline content (f_pos fs) /\ line <> "" /\
  f_pos fs' = f_pos fs + String.length line.
Proof.
  unfold read_step. destruct (readline content (f_pos fs)) as [|c l] eqn:E; [discriminate|].
  intros H. injection H as <- <-. split; [reflexivity|]. split; [discriminate|reflexivity].
Qed.

Lemma read_step_none content fs :
  read_step content fs = None -> readline content (f_pos fs) = "".
Proof. unfold read_step. destruct (readline content (f_pos fs)); [reflexivity|discriminate]. Qed.

Lemma readline_empty content pos :
  readline content pos = "" -> sdrop pos content = "".
Proof.
  unfold readline. destruct (sdrop pos content) as [|c r] eqn:E; [reflexivity|].
  intros H. pose proof (line_length_pos (String c r) ltac:(discriminate)) as Hp.
  apply (f_equal String.length) in H. rewrite slen_stake in H by apply line_length_le.
  cbn [String.length] in H. lia.
Qed.

Lemma drain_exists content fs : exists lines fs', drain content fs lines fs'.
Proof.
  remember (String.length content - f_pos fs) as n eqn:En.
  revert fs En. induction n as [n IH] using lt_wf_ind. intros fs En.
  destruct (read_step content fs) as [[line fs1]|] eqn:E.
  - destruct (read_step_some content fs line fs1 E) as (Hl & Hne & Hp).
    assert (Hlen : f_pos fs + String.length line <= String.length content).
    { rewrite Hl. unfold readline. rewrite slen_stake by apply line_length_le.
      pose proof (line_length_le (sdrop (f_pos fs) content)). rewrite slen_sdrop in H.
      destruct (Nat.le_gt_cases (f_pos fs) (String.length content)); [lia|].
      exfalso. apply Hne. rewrite Hl. unfold readline.
      replace (sdrop (f_pos fs) content) with "".
      - reflexivity.
      - symmetry. apply (f_equal String.length) in Hl.
        destruct (sdrop (f_pos fs) content) as [|c r] eqn:Er; [reflexivity|].
        pose proof (slen_sdrop (f_pos fs) content) as Hs. rewrite Er in Hs. simpl in Hs. lia. }
    assert (Hpos : String.length line > 0) by (destruct line; [congruence|simpl; lia]).
    destruct (IH (String.length content - f_pos fs1)) with (fs := fs1) as (lines & fs' & D);
      [lia|reflexivity|].
    exists (line :: lines), fs'. eapply drain_line; eauto.
  - exists [], fs. apply drain_eof. exact E.
Qed.

Lemma drain_spec content fs lines fs' :
  drain content fs lines fs' -> f_pos fs <= String.length content ->
  fold_right String.append "" lines = sdrop (f_pos fs) content /\
  f_pos fs' = String.length content /\
  Forall (fun l => (l <> "") /\ line_length l = String.length l) lines /\
  Forall (fun l => exists b, l = (b ++ String newline "")) (removelast lines).
Proof.
  induction 1 as [fs E|fs line fs1 lines fs' E D IH]; intros Hle.
  - apply read_step_none, readline_empty in E. simpl. rewrite E.
    split; [reflexivity|]. split; [|split; constructor].
    pose proof (slen_sdrop (f_pos fs) content) as Hs. rewrite E in Hs. simpl in Hs. lia.
  - destruct (read_step_some content fs line fs1 E) as (Hl & Hne & Hp).
    set (rest := sdrop (f_pos fs) content) in *.
    assert (Hline : line = stake (line_length rest) rest) by exact Hl.
    assert (Hll : String.length line = line_length rest)
      by (rewrite Hline; apply slen_stake, line_length_le).
    assert (Hrest : String.length rest = String.length content - f_pos fs) by apply slen_sdrop.
    pose proof (line_length_le rest) as Hle2.
    destruct IH as (Hc & Hf & Hn & Hr); [lia|].
    assert (Hdrop : sdrop (f_pos fs1) content = sdrop (line_length rest) rest)
      by (rewrite Hp, Hll, <- sdrop_add; reflexivity).
    split; [|split; [exact Hf|split]].
    + simpl. rewrite Hc, Hdrop, Hline, stake_sdrop. reflexivity.
    + constructor; [|exact Hn]. split; [exact Hne|].
      rewrite Hline, line_length_stake, slen_stake by apply line_length_le. reflexivity.
    + destruct lines as [|l2 lines]; [constructor|].
      cbn [removelast]. constructor; [|exact Hr].
      inversion Hn as [|? ? [Hl2 _] _]; subst.
      rewrite Hline. apply line_ends_nl.
      assert (Hnz : sdrop (line_length rest) rest <> "").
      { rewrite <- Hdrop, <- Hc. simpl. destruct l2; [congruence|discriminate]. }
      destruct (Nat.lt_ge_cases (line_length rest) (String.length rest)) as [Hlt|Hge]; [exact Hlt|].
      exfalso. apply Hnz. pose proof (slen_sdrop (line_length rest) rest) as Hs.
      destruct (sdrop (line_length rest) rest); [reflexivity|simpl in Hs; lia].
Qed.

Lemma stake_app_full a : stake (String.length a) a = a.
Proof. pose proof (stake_app a "") as E. rewrite sapp_nil in E. exact E. Qed.

Lemma sdrop_past n s : String.length s <= n -> sdrop n s = "".
Proof.
  intros H. pose proof (slen_sdrop n s) as Hs.
  destruct (sdrop n s); [reflexivity|simpl in Hs; lia].
Qed.

Lemma line_length_plain a :
  all_chars (not_char newline) a = true -> line_length a = String.length a.
Proof.
  intros H. pose proof (line_length_app_plain a "" H) as E. rewrite sapp_nil in E.
  rewrite E. simpl. lia.
Qed.

Lemma line_length_nl b :
  all_chars (not_char newline) b = true -> line_length (b ++ String newline "") = S (String.length b).
Proof. intros H. rewrite line_length_app_plain by exact H. simpl. lia. Qed.

(** X11 *)
(** On a plain-text file (ASCII, no carriage return), the inner read
    loop of [_log_follow] always reaches its [break]; the lines it reads,
    concatenated, are exactly the text from the read position to the end
    of the file, and the position ends at the end of the file. Every line is non-empty and contains one line of the file:
    all lines but the last end with a newline (the last may not, when the
    server has not finished writing it). *)
Theorem X11_read_loop_reads_rest content fs :
  plain_text content = true ->
  f_pos fs <= String.length content ->
  (exists lines fs', drain content fs lines fs') /\
  forall lines fs', drain content fs lines fs' ->
    fold_right String.append "" lines = sdrop (f_pos fs) content /\
    f_pos fs' = String.length content /\
    Forall (fun l => (l <> "") /\ line_length l = String.length l) lines /\
    Forall (fun l => exists b, l = (b ++ String newline "")) (removelast lines).
Proof.
  intros _ Hle. split; [apply drain_exists|]. intros lines fs' D. exact (drain_spec content fs lines fs' D Hle).
Qed.

Lemma X11_witness :
  plain_text ("ab" ++ "c" ++ String newline "d")%string = true /\
  f_pos (mkFollower 2 2 1) <= String.length ("ab" ++ "c" ++ String newline "d")%string /\
  fold_right String.append "" ["c" ++ String newline ""; "d"]%string =
    sdrop 2 ("ab" ++ "c" ++ String newline "d")%string.
Proof.
  split; [vm_compute; reflexivity|]. split; [simpl; lia|].
  destruct (X11_read_loop_reads_rest ("ab" ++ "c" ++ String newline "d")%string (mkFollower 2 2 1)
              ltac:(vm_compute; reflexivity) ltac:(simpl; lia)) as [_ H].
  refine (proj1 (H _ (mkFollower 5 2 3) _)).
  eapply drain_line; [reflexivity|]. eapply drain_line; [reflexivity|]. apply drain_eof. reflexivity.
Defined.

(** X12 *)
(** On plain text, a line the server writes in two parts, with a poll
    in between, is yielded as two separate lines: the part already
    written when the follower reaches the end of the file, and the rest
    with its newline once it is written. The truncation check between
    the two does not fire. *)
Theorem X12_line_split_across_polls c a b fs :
  plain_text (c ++ a ++ b ++ String newline "") = true ->
  f_pos fs = String.length c ->
  file_size fs <= String.length (c ++ a) ->
  a <> "" ->
  all_chars (not_char newline) a = true ->
  all_chars (not_char newline) b = true ->
  exists fs1 fs2,
    read_step (c ++ a) fs = Some (a, fs1) /\
    read_step (c ++ a) fs1 = None /\
    check_truncation (c ++ a) fs1 = fs1 /\
    read_step (c ++ a ++ b ++ String newline "") fs1 = Some ((b ++ String newline "")%string, fs2).
Proof.
  intros _ Hp Hs Hne Ha Hb.
  assert (Hr1 : readline (c ++ a) (f_pos fs) = a).
  { unfold readline. rewrite Hp, sdrop_app, line_length_plain by exact Ha. apply stake_app_full. }
  unfold read_step at 1. rewrite Hr1.
  destruct a as [|ch a']; [congruence|].
  set (a := String ch a') in *.
  set (fs1 := {| f_pos := f_pos fs + String.length a;
                 file_size := if Nat.eqb (line_counter fs) 0 then String.length (c ++ a) else file_size fs;
                 line_counter := Nat.modulo (line_counter fs + 1) 1000 |}).
  assert (Hpos1 : f_pos fs1 = String.length c + String.length a) by (simpl; lia).
  eexists fs1, _. split; [reflexivity|]. split; [|split].
  - unfold read_step. unfold readline. rewrite sdrop_past by (rewrite Hpos1, slen_app; lia). reflexivity.
  - unfold check_truncation. replace (Nat.ltb (String.length (c ++ a)) (file_size fs1)) with false.
    + reflexivity.
    + symmetry. apply Nat.ltb_ge. simpl. destruct (Nat.eqb (line_counter fs) 0); lia.
  - unfold read_step. unfold readline. rewrite Hpos1, <- sdrop_add, sdrop_app, sdrop_app.
    rewrite line_length_nl by exact Hb.
    replace (S (String.length b)) with (String.length (b ++ String newline "")) by (rewrite slen_app; simpl; lia).
    rewrite stake_app_full. destruct b; reflexivity.
Qed.

Lemma X12_witness :
  exists fs1 fs2,
    read_step ("x" ++ "ab")%string (mkFollower 1 1 1) = Some ("ab"%string, fs1) /\
    read_step ("x" ++ "ab")%string fs1 = None /\
    check_truncation ("x" ++ "ab")%string fs1 = fs1 /\
    read_step ("x" ++ "ab" ++ "cd" ++ String newline "")%string fs1 =
      Some (("cd" ++ String newline "")%string, fs2).
Proof.
  apply (X12_line_split_across_polls "x" "ab" "cd" (mkFollower 1 1 1));
    [vm_compute; reflexivity|reflexivity|simpl; lia|discriminate|reflexivity|reflexivity].
Defined.



(** X14 *)
(** When the file (plain text) is found shorter than the recorded size
    and re-opened (the re-open succeeding), the text it holds at that moment is never
    read: once more text is appended, the read loop yields exactly the
    appended text and stops at the new end of the file. *)
Theorem X14_reopen_reads_only_new_text content extra fs lines fs' :
  plain_text (content ++ extra) = true ->
  String.length content < file_size fs ->
  drain (content ++ extra) (check_truncation content fs) lines fs' ->
  fold_right String.append "" lines = extra /\
  f_pos fs' = String.length (content ++ extra).
Proof.
  intros _ H D.
  assert (Hp : f_pos (check_truncation content fs) = String.length content).
  { unfold check_truncation. apply Nat.ltb_lt in H. rewrite H. reflexivity. }
  destruct (drain_spec (content ++ extra) _ lines fs' D) as (Hc & Hf & _).
  - rewrite Hp, slen_app. lia.
  - rewrite Hc, Hp, sdrop_app. split; [reflexivity|exact Hf].
Qed.

Lemma X14_witness :
  plain_text ("abc" ++ "d" ++ String newline "e")%string = true /\
  String.length "abc" < file_size (mkFollower 10 10 4) /\
  fold_right String.append "" ["d" ++ String newline ""; "e"]%string = ("d" ++ String newline "e")%string.
Proof.
  split; [vm_compute; reflexivity|]. split; [simpl; lia|].
  refine (proj1 (X14_reopen_reads_only_new_text "abc" ("d" ++ String newline "e")%string
                   (mkFollower 10 10 4) _ (mkFollower 6 3 6)
                   ltac:(vm_compute; reflexivity) ltac:(simpl; lia) _)).
  eapply drain_line; [reflexivity|]. eapply drain_line; [reflexivity|]. apply drain_eof. reflexivity.
Defined.

End Extras.
